(** * Billing contracts for a phone line (contract.py)

    A shallow embedding of the three billing plans of [contract.py]
    (month-to-month, fixed term, prepaid) and of the objects they work on.

    - Python [int] is [Z].
    - Money is an exact rational ([Q], compared with [==]): the ledger is
      specified over decimal amounts, and the constants 0.05, 0.1 and 0.025
      are the rationals 1/20, 1/10 and 1/40.  Python computes with binary64
      floats: [Binary64] gives the float reading of a bill's cost and of
      the minutes of a call, to tell what holds of the float results.
    - A [Bill] is a mutable object that the driver creates and hands to
      [new_month]; the contract keeps a reference to it.  Bills live in a
      store ([gmap loc Bill]) and a contract holds a location, so that two
      references to one bill see each other's updates.
    - Methods are computations in a state-and-exception monad.  An exception
      leaves the updates made before it in place, as in Python. *)

From Stdlib Require Import ZArith QArith Qround Lia Lqa List String.
From Stdlib Require PrimFloat Uint63.
From stdpp Require Import base option gmap.

Local Open Scope Z_scope.

(** ** Exceptions, results and the method monad *)

Inductive exn : Type :=
| AttributeError      (* attribute access on [None] *)
| NotImplementedError (* the abstract [Contract.new_month] *)
| InvalidReference.   (* a location outside the store: no Python reference
                         is ever in this state, and the theorems are about
                         allocated bills *)

Inductive result (A : Type) : Type :=
| Ok (a : A)
| Raise (e : exn).

Arguments Ok {A} a.
Arguments Raise {A} e.

Definition loc := nat.

(** ** datetime.date and Call *)

Module Date.
Record t : Type := mk { year : Z; month : Z; day : Z }.

(** [d1 <= d2] on whole dates, as [datetime.date.__le__]. *)
Definition leb (d1 d2 : t) : bool :=
  (year d1 <? year d2)
  || ((year d1 =? year d2)
      && ((month d1 <? month d2)
          || ((month d1 =? month d2) && (day d1 <=? day d2)))).

(** The first day of [d]'s month. *)
Definition first_of_month (d : t) : t := mk (year d) (month d) 1.

(** The date a billed [month]/[year] stands for: the day the driver
    opens the month, its first. *)
Definition of_month (month year : Z) : t := mk year month 1.

End Date.

(** Modelled from the spec: the call record ([call.py] is not part of the
    sources); the contract reads a single field, the duration in seconds. *)
Record Call : Type := mkCall { duration : Z }.

(** ** The ledger *)

(** Modelled from the spec: the billing ledger ([bill.py] is not part of the
    sources).  It accumulates fixed costs, holds a plan label and a
    per-minute rate, accumulates billed and free minutes and reports
    fixed costs + rate * billed minutes. *)
Module Bill.
(** Modelled from the spec: the ledger's accumulators, rate and label. *)
Record t : Type := mk {
  billed_min : Z;
  free_min : Z;
  min_rate : Q;
  fixed_cost : Q;
  type : string
}.

(** [Bill()] *)
Definition init : t := mk 0 0 0 0 EmptyString.

Definition set_rates (contract_type : string) (min_cost : Q) (b : t) : t :=
  mk (billed_min b) (free_min b) min_cost (fixed_cost b) contract_type.

Definition add_fixed_cost (cost : Q) (b : t) : t :=
  mk (billed_min b) (free_min b) (min_rate b) (fixed_cost b + cost) (type b).

Definition add_billed_minutes (minutes : Z) (b : t) : t :=
  mk (billed_min b + minutes) (free_min b) (min_rate b) (fixed_cost b) (type b).

Definition add_free_minutes (minutes : Z) (b : t) : t :=
  mk (billed_min b) (free_min b + minutes) (min_rate b) (fixed_cost b) (type b).

Definition get_cost (b : t) : Q :=
  min_rate b * inject_Z (billed_min b) + fixed_cost b.
End Bill.

Abbreviation heap := (gmap loc Bill.t).

(** ** The method monad: object state [S], the store of bills, exceptions *)

Definition M (S A : Type) : Type := S * heap -> result A * (S * heap).

Definition ret {S A} (a : A) : M S A := fun w => (Ok a, w).

Definition bind {S A B} (m : M S A) (k : A -> M S B) : M S B :=
  fun w =>
    match m w with
    | (Ok a, w') => k a w'
    | (Raise e, w') => (Raise e, w')
    end.

Declare Scope method_scope.
Delimit Scope method_scope with method.
Notation "x <- m ;; k" := (bind m (fun x => k))
  (at level 100, m at next level, k at level 200, right associativity)
  : method_scope.
Notation "m ;; k" := (bind m (fun _ => k))
  (at level 100, k at level 200, right associativity) : method_scope.

Definition raise {S A} (e : exn) : M S A := fun w => (Raise e, w).

(** [self] *)
Definition get_self {S} : M S S := fun w => (Ok (fst w), w).

(** [self.f = v], through a field setter *)
Definition set_self {S} (f : S -> S) : M S unit :=
  fun w => (Ok tt, (f (fst w), snd w)).

(** [o.attr] on an optional object: [None] has no attributes. *)
Definition attr {S A} (o : option A) : M S A :=
  match o with
  | Some a => ret a
  | None => raise AttributeError
  end.

(** A mutating method call [bill.f(...)] on the bill at [l]. *)
Definition bill_update {S} (l : loc) (f : Bill.t -> Bill.t) : M S unit :=
  fun w =>
    match snd w !! l with
    | Some b => (Ok tt, (fst w, <[l := f b]> (snd w)))
    | None => (Raise InvalidReference, w)
    end.

(** A query [bill.f()] on the bill at [l]. *)
Definition bill_query {S A} (l : loc) (f : Bill.t -> A) : M S A :=
  fun w =>
    match snd w !! l with
    | Some b => (Ok (f b), w)
    | None => (Raise InvalidReference, w)
    end.

(** ** Constants of contract.py *)

(** The amounts are the decimal literals of the source, taken exactly.
    The fees and the deposit are whole amounts, the same in binary64; the
    three rates are not ([Binary64.of_Q] gives their floats), so a product
    of a rate and a number of minutes is exact here and rounded in the
    code. *)

Definition MTM_MONTHLY_FEE : Q := 50.
Definition TERM_MONTHLY_FEE : Q := 20.
Definition TERM_DEPOSIT : Q := 300.
Definition TERM_MINS : Z := 100.
Definition MTM_MINS_COST : Q := 5 # 100.
Definition TERM_MINS_COST : Q := 1 # 10.
Definition PREPAID_MINS_COST : Q := 25 # 1000.

(** [ceil(call.duration / 60.0)]: the quotient is taken exactly.  The
    float quotient has the same ceiling for a duration below 2^53 seconds
    ([ceil_minutes_binary64] compares the two on floats for every
    duration of up to a day; [ceil_minutes_binary64_limit] shows a
    duration above 2^53 where they part). *)
Definition ceil_minutes (call : Call) : Z :=
  Qceiling (inject_Z (duration call) / 60).

Local Open Scope method_scope.

(** ** Contract, the abstract class *)

Module Contract.
Record t : Type := mk { start : option Date.t; bill : option loc }.

Definition set_start (v : option Date.t) (c : t) : t := mk v (bill c).

(** [Contract(start)] *)
Definition init (start : Date.t) : t := mk (Some start) None.

Definition new_month (month year : Z) (b : loc) : M t unit :=
  raise NotImplementedError.

Definition bill_call (call : Call) : M t unit :=
  self <- get_self ;;
  b <- attr (bill self) ;;
  bill_update b (Bill.add_billed_minutes (ceil_minutes call)).

Definition cancel_contract : M t Q :=
  set_self (set_start None) ;;
  self <- get_self ;;
  b <- attr (bill self) ;;
  bill_query b Bill.get_cost.
End Contract.

(** ** MTMContract *)

Module MTMContract.
Record t : Type := mk { start : option Date.t; bill : option loc }.

Definition set_start (v : option Date.t) (c : t) : t := mk v (bill c).
Definition set_bill (v : option loc) (c : t) : t := mk (start c) v.

(** [MTMContract(start)] *)
Definition init (start : Date.t) : t := mk (Some start) None.

Definition new_month (month year : Z) (b : loc) : M t unit :=
  bill_update b (Bill.set_rates "MTM" MTM_MINS_COST) ;;
  bill_update b (Bill.add_fixed_cost MTM_MONTHLY_FEE) ;;
  set_self (set_bill (Some b)).

Definition bill_call (call : Call) : M t unit :=
  self <- get_self ;;
  b <- attr (bill self) ;;
  bill_update b (Bill.add_billed_minutes (ceil_minutes call)).

Definition cancel_contract : M t Q :=
  set_self (set_start None) ;;
  self <- get_self ;;
  b <- attr (bill self) ;;
  bill_query b Bill.get_cost.
End MTMContract.

(** ** TermContract *)

Module TermContract.
Record t : Type := mk {
  start : option Date.t;
  end_ : Date.t;
  bill : option loc;
  deposit : bool;
  minutes : Z
}.

Definition set_start (v : option Date.t) (c : t) : t :=
  mk v (end_ c) (bill c) (deposit c) (minutes c).
Definition set_bill (v : option loc) (c : t) : t :=
  mk (start c) (end_ c) v (deposit c) (minutes c).
Definition set_deposit (v : bool) (c : t) : t :=
  mk (start c) (end_ c) (bill c) v (minutes c).
Definition set_minutes (v : Z) (c : t) : t :=
  mk (start c) (end_ c) (bill c) (deposit c) v.

(** [TermContract(start, end)] *)
Definition init (start end_ : Date.t) : t :=
  mk (Some start) end_ None false 0.

(** [self.start.month == month and self.start.year == year] *)
Definition is_start_month (s : Date.t) (month year : Z) : bool :=
  (Date.month s =? month) && (Date.year s =? year).

(** [(self.end.month <= month and self.end.year == year)
     or self.end.year < year] *)
Definition end_reached (e : Date.t) (month year : Z) : bool :=
  ((Date.month e <=? month) && (Date.year e =? year)) || (Date.year e <? year).

Definition new_month (month year : Z) (b : loc) : M t unit :=
  bill_update b (Bill.set_rates "TERM" TERM_MINS_COST) ;;
  bill_update b (Bill.add_fixed_cost TERM_MONTHLY_FEE) ;;
  set_self (set_minutes 0) ;;
  self <- get_self ;;
  s <- attr (start self) ;;
  (if is_start_month s month year then
     bill_update b (Bill.add_fixed_cost TERM_DEPOSIT)
   else if end_reached (end_ self) month year then
     set_self (set_deposit true)
   else ret tt) ;;
  set_self (set_bill (Some b)).

Definition bill_call (call : Call) : M t unit :=
  self <- get_self ;;
  (if TERM_MINS <? minutes self then
     b <- attr (bill self) ;;
     bill_update b (Bill.add_billed_minutes (ceil_minutes call))
   else
     let billed_mins := minutes self + ceil_minutes call - TERM_MINS in
     let billed_mins := Z.max billed_mins 0 in
     b <- attr (bill self) ;;
     bill_update b (Bill.add_billed_minutes billed_mins) ;;
     let free := ceil_minutes call - billed_mins in
     b <- attr (bill self) ;;
     bill_update b (Bill.add_free_minutes free)) ;;
  self <- get_self ;;
  set_self (set_minutes (minutes self + ceil_minutes call)).

Definition cancel_contract : M t Q :=
  set_self (set_start None) ;;
  self <- get_self ;;
  (if deposit self then
     b <- attr (bill self) ;;
     bill_update b (Bill.add_fixed_cost (- TERM_DEPOSIT))
   else ret tt) ;;
  b <- attr (bill self) ;;
  bill_query b Bill.get_cost.
End TermContract.

(** ** PrepaidContract *)

Module PrepaidContract.
Record t : Type := mk {
  start : option Date.t;
  bill : option loc;
  balance : Z
}.

Definition set_start (v : option Date.t) (c : t) : t :=
  mk v (bill c) (balance c).
Definition set_bill (v : option loc) (c : t) : t :=
  mk (start c) v (balance c).
Definition set_balance (v : Z) (c : t) : t :=
  mk (start c) (bill c) v.

(** [PrepaidContract(start, balance)] *)
Definition init (start : Date.t) (balance : Z) : t :=
  mk (Some start) None (- balance).

Definition new_month (month year : Z) (b : loc) : M t unit :=
  self <- get_self ;;
  (if -10 <? balance self then
     set_self (set_balance (balance self - 25)) ;;
     bill_update b (Bill.add_fixed_cost 25)
   else ret tt) ;;
  bill_update b (Bill.set_rates "PREPAID" PREPAID_MINS_COST) ;;
  self <- get_self ;;
  bill_update b (Bill.add_fixed_cost (inject_Z (balance self))) ;;
  set_self (set_bill (Some b)).

Definition bill_call (call : Call) : M t unit :=
  self <- get_self ;;
  b <- attr (bill self) ;;
  bill_update b (Bill.add_billed_minutes (ceil_minutes call)).

Definition cancel_contract : M t Q :=
  set_self (set_start None) ;;
  self <- get_self ;;
  b <- attr (bill self) ;;
  c <- bill_query b Bill.get_cost ;;
  if Qlt_le_dec c 0 then ret 0%Q
  else
    b <- attr (bill self) ;;
    bill_query b Bill.get_cost.
End PrepaidContract.

(** ** The driver's side *)

(** A TermContract's life as the driver runs it: months are opened, calls
    are billed, the line is cancelled. *)
Module TermDriver.
Import TermContract.

Inductive op : Type :=
| NewMonth (month year : Z) (b : loc)
| BillCall (call : Call)
| Cancel.

Definition step (o : op) : M t unit :=
  match o with
  | NewMonth month year b => new_month month year b
  | BillCall call => bill_call call
  | Cancel => cancel_contract ;; ret tt
  end.

(** The operations in order; the first exception ends the run. *)
Fixpoint run (ops : list op) : M t unit :=
  match ops with
  | [] => ret tt
  | o :: ops' => step o ;; run ops'
  end.

(** Some executed [new_month] other than the start month's had reached
    the end month/year. *)
Definition refund_due (s e : Date.t) (ops : list op) : bool :=
  existsb (fun o =>
             match o with
             | NewMonth month year _ =>
                 negb (is_start_month s month year)
                 && end_reached e month year
             | _ => false
             end) ops.


(** Minutes used since the last [new_month] of [ops], from [acc]. *)
Definition month_usage (acc : Z) (ops : list op) : Z :=
  fold_left (fun acc o =>
               match o with
               | NewMonth _ _ _ => 0
               | BillCall call => acc + ceil_minutes call
               | Cancel => acc
               end) ops acc.
End TermDriver.

(** The calls of a month on an MTMContract. *)
Module MTMDriver.
Import MTMContract.

(** The calls of a month, in order. *)
Fixpoint bill_calls (calls : list Call) : M t unit :=
  match calls with
  | [] => ret tt
  | call :: calls' => bill_call call ;; bill_calls calls'
  end.
End MTMDriver.

(** ** Outcomes: the states the methods leave behind *)

Module TermOutcome.
Import TermContract.

(** The bill after [bill_call], from the bill before it. *)
Definition billed (c : t) (call : Call) (b : Bill.t) : Bill.t :=
  if TERM_MINS <? minutes c then
    Bill.add_billed_minutes (ceil_minutes call) b
  else
    let billed_mins := Z.max (minutes c + ceil_minutes call - TERM_MINS) 0 in
    Bill.add_free_minutes (ceil_minutes call - billed_mins)
      (Bill.add_billed_minutes billed_mins b).

(** The bill after a month's fee (and the deposit in the start month). *)
Definition month_bill (s : Date.t) (month year : Z) (b : Bill.t) : Bill.t :=
  let b0 :=
    Bill.add_fixed_cost TERM_MONTHLY_FEE
      (Bill.set_rates "TERM" TERM_MINS_COST b) in
  if is_start_month s month year then Bill.add_fixed_cost TERM_DEPOSIT b0
  else b0.

(** The contract after [new_month] returns. *)
Definition month_self (s : Date.t) (month year : Z) (l : loc) (c : t) : t :=
  set_bill (Some l)
    (if is_start_month s month year then set_minutes 0 c
     else if end_reached (end_ c) month year
          then set_deposit true (set_minutes 0 c)
          else set_minutes 0 c).

End TermOutcome.

Module PrepaidOutcome.
Import PrepaidContract.

(** The balance after [new_month]: a top-up when credit is under 10. *)
Definition topped_up (c : t) : Z :=
  if -10 <? balance c then balance c - 25 else balance c.

(** The bill after [new_month]. *)
Definition month_bill (c : t) (b : Bill.t) : Bill.t :=
  Bill.add_fixed_cost (inject_Z (topped_up c))
    (Bill.set_rates "PREPAID" PREPAID_MINS_COST
       (if -10 <? balance c then Bill.add_fixed_cost 25 b else b)).
End PrepaidOutcome.

(** ** Binary64: what Python's floats compute *)

Module Binary64.
(** [float(z)] for a Python [int] smaller than 2^63 in size (exact below
    2^53). *)
Definition of_Z (z : Z) : PrimFloat.float :=
  match z with
  | Z0 => PrimFloat.zero
  | Zpos _ => PrimFloat.of_uint63 (Uint63.of_Z z)
  | Zneg p => PrimFloat.opp (PrimFloat.of_uint63 (Uint63.of_Z (Zpos p)))
  end.

(** The float a decimal literal [n/d] denotes: the double nearest to it.
    [of_Q (5 # 100)] is the float [0.05] of [MTM_MINS_COST]. *)
Definition of_Q (q : Q) : PrimFloat.float :=
  PrimFloat.div (of_Z (Qnum q)) (of_Z (Zpos (Qden q))).

(** [duration / 60.0] *)
Definition minutes_quotient (duration : Z) : PrimFloat.float :=
  PrimFloat.div (of_Z duration) (of_Z 60).

(** [math.ceil(f) == m]: [m] is the integer with [m - 1 < f <= m]. *)
Definition is_ceil (f : PrimFloat.float) (m : Z) : bool :=
  PrimFloat.ltb (of_Z (m - 1)) f && PrimFloat.leb f (of_Z m).

(** Modelled from the spec: the ledger's cost query on floats,
    [min_rate * billed_min + fixed_cost], for a bill whose rate and fixed
    costs are the floats of the model's values (fixed costs made of whole
    amounts add up exactly in either arithmetic). *)
Definition get_cost (b : Bill.t) : PrimFloat.float :=
  PrimFloat.add
    (PrimFloat.mul (of_Q (Bill.min_rate b)) (of_Z (Bill.billed_min b)))
    (of_Q (Bill.fixed_cost b)).

(** [ceil(d / 60.0)], computed on floats, is the model's [ceil_minutes],
    for each of the [n] durations from [d] on. *)
Fixpoint ceil_agrees_from (n : nat) (d : Z) : bool :=
  match n with
  | O => true
  | S k =>
      if is_ceil (minutes_quotient d) (ceil_minutes (mkCall d))
      then ceil_agrees_from k (d + 1)
      else false
  end.
End Binary64.

(** ** The contract interface *)

(** What [Contract] promises to its callers: the three methods, and the
    bill the contract refers to.  Each class is an instance. *)
Module Driver.
Class Plan (S : Type) : Type := {
  bill_ref : S -> option loc;
  new_month : Z -> Z -> loc -> M S unit;
  bill_call : Call -> M S unit;
  cancel_contract : M S Q
}.

#[global] Instance base_plan : Plan Contract.t := {|
  bill_ref := Contract.bill;
  new_month := Contract.new_month;
  bill_call := Contract.bill_call;
  cancel_contract := Contract.cancel_contract
|}.

#[global] Instance mtm_plan : Plan MTMContract.t := {|
  bill_ref := MTMContract.bill;
  new_month := MTMContract.new_month;
  bill_call := MTMContract.bill_call;
  cancel_contract := MTMContract.cancel_contract
|}.

#[global] Instance term_plan : Plan TermContract.t := {|
  bill_ref := TermContract.bill;
  new_month := TermContract.new_month;
  bill_call := TermContract.bill_call;
  cancel_contract := TermContract.cancel_contract
|}.

#[global] Instance prepaid_plan : Plan PrepaidContract.t := {|
  bill_ref := PrepaidContract.bill;
  new_month := PrepaidContract.new_month;
  bill_call := PrepaidContract.bill_call;
  cancel_contract := PrepaidContract.cancel_contract
|}.

Inductive op : Type :=
| NewMonth (month year : Z) (b : loc)
| BillCall (call : Call)
| Cancel.

Definition step {S} `{Plan S} (o : op) : M S unit :=
  match o with
  | NewMonth month year b => new_month month year b
  | BillCall call => bill_call call
  | Cancel => cancel_contract ;; ret tt
  end.

(** The operations in order; the first exception ends the run. *)
Fixpoint run {S} `{Plan S} (ops : list op) : M S unit :=
  match ops with
  | [] => ret tt
  | o :: ops' => step o ;; run ops'
  end.

(** How many months a list of operations opens. *)
Definition months (ops : list op) : Z :=
  fold_right (fun o n =>
                match o with
                | NewMonth _ _ _ => 1 + n
                | BillCall _ | Cancel => n
                end) 0 ops.

(** The one bill an operation works on: the argument of [new_month], the
    bill already bound for the other two. *)
Definition target {S} `{Plan S} (o : op) (c : S) : option loc :=
  match o with
  | NewMonth _ _ b => Some b
  | BillCall _ | Cancel => bill_ref c
  end.

(** [start] is only ever cleared: after any operations, also when one of
    them raises, it is what it was or [None]. *)
Definition start_only_cleared (S : Type) `{Plan S}
           (start : S -> option Date.t) : Prop :=
  forall (ops : list op) (c : S) (h : heap),
    let c' := fst (snd (run ops (c, h))) in
    start c' = start c \/ start c' = None.

(** No operation of the class allocates or frees a bill, or changes a
    bill other than its target. *)
Definition keeps_other_bills (S : Type) `{Plan S} : Prop :=
  forall (o : op) (c : S) (h : heap),
    let h' := snd (snd (step o (c, h))) in
    dom h' = dom h
    /\ forall l', target o c <> Some l' -> h' !! l' = h !! l'.
End Driver.

(** The minutes a list of calls is billed for. *)
Definition total_minutes (calls : list Call) : Z :=
  fold_right (fun call acc => ceil_minutes call + acc) 0 calls.

(** A store [h'] that differs from [h] at most in the bill at [l]. *)
Definition touched (l : option loc) (h h' : heap) : Prop :=
  h' = h
  \/ exists l0 b b', l = Some l0 /\ h !! l0 = Some b /\ h' = <[l0 := b']> h.

(** * Lemmas *)

Section MethodLemmas.
Context {S : Type}.

Lemma bill_update_run (l : loc) (f : Bill.t -> Bill.t) (s : S)
      (h : heap) (b : Bill.t) :
  h !! l = Some b ->
  bill_update l f (s, h) = (Ok tt, (s, <[l := f b]> h)).
Proof. intros Hl. unfold bill_update. simpl. now rewrite Hl. Qed.

Lemma bill_update_twice (l : loc) (f g : Bill.t -> Bill.t) (s : S)
      (h : heap) (b : Bill.t) :
  bill_update l g (s, <[l := f b]> h)
  = (Ok tt, (s, <[l := g (f b)]> h)).
Proof.
  unfold bill_update. simpl.
  now rewrite lookup_insert_eq, insert_insert_eq.
Qed.

Lemma bill_query_run {A} (l : loc) (f : Bill.t -> A) (s : S) (h : heap)
      (b : Bill.t) :
  h !! l = Some b -> bill_query l f (s, h) = (Ok (f b), (s, h)).
Proof. intros Hl. unfold bill_query. simpl. now rewrite Hl. Qed.

Lemma bill_query_updated {A} (l : loc) (f : Bill.t -> A) (s : S) (h : heap)
      (b : Bill.t) :
  bill_query l f (s, <[l := b]> h) = (Ok (f b), (s, <[l := b]> h)).
Proof. apply bill_query_run, lookup_insert_eq. Qed.

Lemma bind_run {A B} (m : M S A) (k : A -> M S B) w a w' :
  m w = (Ok a, w') -> bind m k w = k a w'.
Proof. intros H. unfold bind. now rewrite H. Qed.

Lemma bind_raise {A B} (m : M S A) (k : A -> M S B) w e w' :
  m w = (Raise e, w') -> bind m k w = (Raise e, w').
Proof. intros H. unfold bind. now rewrite H. Qed.
End MethodLemmas.

(** Steps through a method body: each bound call is evaluated in turn. *)
Ltac step_method :=
  repeat first
    [ rewrite bill_update_twice
    | erewrite bill_update_run by eassumption
    | rewrite bill_query_updated
    | erewrite bill_query_run by eassumption
    | progress (unfold bind, get_self, set_self, attr, ret, raise; simpl) ].

(** [ceil(d / 60.0)] on integers. *)
Lemma ceil_minutes_div (call : Call) :
  ceil_minutes call = - ((- duration call) / 60).
Proof.
  unfold ceil_minutes, Qceiling, Qfloor.
  destruct (duration call) as [|p|p]; simpl; try reflexivity;
    rewrite ?Pos.mul_1_r, ?Z.mul_1_r; reflexivity.
Qed.

Lemma ceil_minutes_nonneg (call : Call) :
  0 <= duration call -> 0 <= ceil_minutes call.
Proof.
  intros Hd. rewrite ceil_minutes_div.
  assert ((- duration call) / 60 <= 0) by (apply Z.div_le_upper_bound; lia).
  lia.
Qed.

Module TermLemmas.
Import TermContract TermOutcome.

Lemma term_bill_call_run (c : t) (h : heap) (l : loc) (b : Bill.t)
      (call : Call) :
  bill c = Some l -> h !! l = Some b ->
  bill_call call (c, h)
  = (Ok tt, (set_minutes (minutes c + ceil_minutes call) c,
             <[l := billed c call b]> h)).
Proof.
  intros Hb Hl. unfold bill_call, billed.
  step_method. rewrite Hb.
  destruct (TERM_MINS <? minutes c); step_method; reflexivity.
Qed.
End TermLemmas.

(** * TermContract.bill_call: the free allowance *)

Module TermBillCall.
Import TermContract TermOutcome TermLemmas.




(** C10: with the counter strictly above [TERM_MINS] on entry,
    [bill_call] adds exactly [ceil(call.duration / 60)] billed minutes
    (the least [m] with [60 * (m - 1) < duration <= 60 * m]) and leaves
    the free-minute accumulator unchanged. *)
Theorem term_bill_call_over_allowance (c : t) (h : heap) (l : loc) (b : Bill.t)
        (call : Call) :
  bill c = Some l -> h !! l = Some b -> TERM_MINS < minutes c ->
  exists c' b',
    bill_call call (c, h) = (Ok tt, (c', <[l := b']> h))
    /\ Bill.billed_min b' = Bill.billed_min b + ceil_minutes call
    /\ Bill.free_min b' = Bill.free_min b
    /\ (0 <= duration call < 2 ^ 53 ->
        60 * (ceil_minutes call - 1) < duration call <= 60 * ceil_minutes call).
Proof.
  intros Hb Hl Hover.
  exists (set_minutes (minutes c + ceil_minutes call) c), (billed c call b).
  split; [now apply term_bill_call_run|].
  unfold billed. apply Z.ltb_lt in Hover. rewrite Hover. simpl.
  split; [reflexivity|]. split; [reflexivity|].
  intros _. rewrite ceil_minutes_div.
  pose proof (Z.div_mod (- duration call) 60 ltac:(lia)) as Hdiv.
  pose proof (Z.mod_pos_bound (- duration call) 60 ltac:(lia)) as Hmod.
  lia.
Qed.

(** At 101 minutes, a call of 61 seconds adds 2 billed minutes. *)
Lemma term_bill_call_over_allowance_witness :
  let b := Bill.mk 1 100 TERM_MINS_COST 20 "TERM" in
  let c :=
    mk (Some (Date.mk 2017 1 1)) (Date.mk 2019 1 1) (Some 0%nat) false 101 in
  exists c' b',
    bill_call (mkCall 61) (c, {[ 0%nat := b ]})
    = (Ok tt, (c', <[0%nat := b']> {[ 0%nat := b ]}))
    /\ Bill.billed_min b' = 3
    /\ Bill.free_min b' = 100.
Proof.
  intros b c.
  destruct (term_bill_call_over_allowance c {[ 0%nat := b ]} 0%nat b
              (mkCall 61) eq_refl (lookup_singleton_eq _ _)
              ltac:(unfold TERM_MINS; simpl; lia))
    as (c' & b' & Hrun & Hbilled & Hfree & _).
  exists c', b'. split; [exact Hrun|].
  split; [rewrite Hbilled; reflexivity|rewrite Hfree; reflexivity].
Defined.
End TermBillCall.

Module TermMonthLemmas.
Import TermContract TermDriver TermOutcome.

Lemma term_new_month_run (c : t) (h : heap) (l : loc) (b : Bill.t) (s : Date.t)
      (month year : Z) :
  start c = Some s -> h !! l = Some b ->
  new_month month year l (c, h)
  = (Ok tt,
     (month_self s month year l c, <[l := month_bill s month year b]> h)).
Proof.
  intros Hs Hl. unfold new_month, month_self, month_bill.
  step_method. rewrite Hs. step_method.
  destruct (is_start_month s month year); step_method; [reflexivity|].
  destruct (end_reached (end_ c) month year); reflexivity.
Qed.

Lemma term_new_month_cancelled (c : t) (h : heap) (l : loc) (b : Bill.t)
      (month year : Z) :
  start c = None -> h !! l = Some b ->
  new_month month year l (c, h)
  = (Raise AttributeError,
     (set_minutes 0 c,
      <[l := Bill.add_fixed_cost TERM_MONTHLY_FEE
               (Bill.set_rates "TERM" TERM_MINS_COST b)]> h)).
Proof.
  intros Hs Hl. unfold new_month. step_method. rewrite Hs. reflexivity.
Qed.

Lemma term_new_month_unallocated (c : t) (h : heap) (l : loc) (month year : Z) :
  h !! l = None ->
  new_month month year l (c, h) = (Raise InvalidReference, (c, h)).
Proof.
  intros Hl. unfold new_month, bind, bill_update. simpl.
  now rewrite Hl.
Qed.

(** What a returning [new_month] has done. *)
Lemma term_new_month_ok_inv (c : t) (h : heap) (l : loc) (month year : Z)
      (c' : t) (h' : heap) :
  new_month month year l (c, h) = (Ok tt, (c', h')) ->
  exists s b,
    start c = Some s /\ h !! l = Some b
    /\ c' = month_self s month year l c
    /\ h' = <[l := month_bill s month year b]> h.
Proof.
  intros Hrun.
  destruct (h !! l) as [b|] eqn:Hl;
    [|rewrite term_new_month_unallocated in Hrun by assumption; discriminate].
  destruct (start c) as [s|] eqn:Hs;
    [|rewrite (term_new_month_cancelled c h l b) in Hrun by assumption;
      discriminate].
  rewrite (term_new_month_run c h l b s) in Hrun by assumption.
  exists s, b. now inversion Hrun.
Qed.

(** [bill_call] touches [minutes] only, also when it raises. *)
Lemma term_bill_call_frame (c : t) (h : heap) (call : Call) :
  let c' := fst (snd (bill_call call (c, h))) in
  start c' = start c /\ end_ c' = end_ c /\ deposit c' = deposit c
  /\ bill c' = bill c.
Proof.
  unfold bill_call. step_method.
  destruct (bill c) as [l|] eqn:Hb; [destruct (h !! l) eqn:Hl|];
    destruct (TERM_MINS <? minutes c); simpl;
    unfold bind, bill_update; simpl;
    rewrite ?Hl; simpl; rewrite ?lookup_insert_eq; simpl; auto.
Qed.

Lemma term_bill_call_ok_inv (c : t) (h : heap) (call : Call) (c' : t)
      (h' : heap) :
  bill_call call (c, h) = (Ok tt, (c', h')) ->
  c' = set_minutes (minutes c + ceil_minutes call) c.
Proof.
  intros Hrun.
  destruct (bill c) as [l|] eqn:Hb.
  - destruct (h !! l) as [b|] eqn:Hl.
    + rewrite (TermLemmas.term_bill_call_run c h l b) in Hrun by assumption.
      now inversion Hrun.
    + revert Hrun. unfold bill_call. step_method. rewrite Hb.
      destruct (TERM_MINS <? minutes c); simpl;
        unfold bind, bill_update; simpl; rewrite Hl; discriminate.
  - revert Hrun. unfold bill_call. step_method. rewrite Hb.
    destruct (TERM_MINS <? minutes c); discriminate.
Qed.


(** [cancel_contract] clears [start] first: whatever happens next, only
    [start] has changed in the contract. *)
Lemma term_cancel_contract_self (c : t) (h : heap) :
  fst (snd (cancel_contract (c, h))) = set_start None c.
Proof.
  unfold cancel_contract. step_method.
  destruct (bill c) as [l|]; [destruct (h !! l) eqn:Hl|];
    destruct (deposit c); simpl; try reflexivity;
    unfold bind, bill_update, bill_query; simpl;
    rewrite ?Hl; simpl; rewrite ?lookup_insert_eq, ?Hl; reflexivity.
Qed.
End TermMonthLemmas.

Ltac bool_cases :=
  repeat match goal with
         | |- context [?a <? ?b] => destruct (Z.ltb_spec a b)
         | |- context [?a <=? ?b] => destruct (Z.leb_spec a b)
         | |- context [?a =? ?b] => destruct (Z.eqb_spec a b)
         | H : context [?a <? ?b] |- _ => destruct (Z.ltb_spec a b)
         | H : context [?a <=? ?b] |- _ => destruct (Z.leb_spec a b)
         | H : context [?a =? ?b] |- _ => destruct (Z.eqb_spec a b)
         end;
  simpl in *; try reflexivity; try discriminate; try lia.

Module TermRunLemmas.
Import TermContract TermDriver TermOutcome TermMonthLemmas.

(** The decomposed test of [new_month] is a comparison of whole dates,
    of the first day of the end date's month with the billed month. *)
Lemma end_reached_leb (e : Date.t) (month year : Z) :
  end_reached e month year
  = Date.leb (Date.first_of_month e) (Date.of_month month year).
Proof.
  unfold end_reached, Date.leb, Date.first_of_month, Date.of_month. simpl.
  bool_cases.
Qed.



Lemma run_cons_inv (o : op) (ops : list op) (w w' : t * heap) :
  run (o :: ops) w = (Ok tt, w') ->
  exists w1, step o w = (Ok tt, w1) /\ run ops w1 = (Ok tt, w').
Proof.
  simpl. unfold bind. destruct (step o w) as [[[]|ex] w1]; [|discriminate].
  intros Hrun. now exists w1.
Qed.

Lemma cancel_step_inv (c : t) (h : heap) (w1 : t * heap) :
  step Cancel (c, h) = (Ok tt, w1) -> fst w1 = set_start None c.
Proof.
  simpl. unfold bind. intros Hrun.
  pose proof (term_cancel_contract_self c h) as Hself.
  destruct (cancel_contract (c, h)) as [[r|ex] w2]; [|discriminate].
  inversion Hrun. subst. exact Hself.
Qed.

(** What one returning operation does to the contract. *)
Lemma step_ok_inv (s : Date.t) (o : op) (c c1 : t) (h h1 : heap) :
  step o (c, h) = (Ok tt, (c1, h1)) ->
  start c = Some s \/ start c = None ->
  end_ c1 = end_ c
  /\ (start c1 = Some s \/ start c1 = None)
  /\ deposit c1 = deposit c || refund_due s (end_ c) [o]
  /\ minutes c1 = month_usage (minutes c) [o].
Proof.
  intros Hstep Hstart. destruct o as [month year b|call|].
  - apply term_new_month_ok_inv in Hstep as (s' & b0 & Hs & _ & -> & _).
    destruct Hstart as [Hs'|Hs']; rewrite Hs' in Hs; [|discriminate].
    inversion Hs; subst s'. unfold month_self. simpl.
    destruct (is_start_month s month year); simpl;
      [|destruct (end_reached (end_ c) month year)]; simpl;
      rewrite ?orb_true_r, ?orb_false_r; auto.
  - apply term_bill_call_ok_inv in Hstep as ->. simpl.
    rewrite orb_false_r. auto.
  - apply cancel_step_inv in Hstep. simpl in Hstep. subst c1. simpl.
    rewrite orb_false_r. auto.
Qed.

(** What a returning run does to the contract. *)
Lemma run_ok_inv (s : Date.t) (ops : list op) :
  forall (c c' : t) (h h' : heap),
    run ops (c, h) = (Ok tt, (c', h')) ->
    start c = Some s \/ start c = None ->
    end_ c' = end_ c
    /\ (start c' = Some s \/ start c' = None)
    /\ deposit c' = deposit c || refund_due s (end_ c) ops
    /\ minutes c' = month_usage (minutes c) ops.
Proof.
  induction ops as [|o ops IH]; intros c c' h h' Hrun Hstart.
  - inversion Hrun; subst. simpl. rewrite orb_false_r. auto.
  - apply run_cons_inv in Hrun as ([c1 h1] & Hstep & Hrest).
    destruct (step_ok_inv s o c c1 h h1 Hstep Hstart)
      as (He & Hs1 & Hd & Hm).
    destruct (IH c1 c' h1 h' Hrest Hs1) as (He' & Hs' & Hd' & Hm').
    repeat split.
    + congruence.
    + exact Hs'.
    + rewrite Hd', Hd, He. simpl. rewrite orb_false_r.
      now rewrite orb_assoc.
    + rewrite Hm', Hm. reflexivity.
Qed.
End TermRunLemmas.

(** * TermContract: deposit and minutes over the months *)

Module TermMonths.
Import TermContract TermDriver TermOutcome TermMonthLemmas TermRunLemmas.

(** C2, as the code has it.  In a [new_month] call whose month/year is
    not the start month/year, the deposit flag is set exactly when the
    billed month has reached the month of the end date, that is, when the
    first day of the billed month is on or after the first day of the end
    date's month (the day of the end date plays no part); otherwise the
    flag is left as it was. *)
Theorem term_new_month_deposit_flag (c : t) (h : heap) (l : loc) (b : Bill.t)
        (s : Date.t) (month year : Z) :
  start c = Some s -> h !! l = Some b ->
  is_start_month s month year = false ->
  exists c' h',
    new_month month year l (c, h) = (Ok tt, (c', h'))
    /\ deposit c'
       = if Date.leb (Date.first_of_month (end_ c)) (Date.of_month month year)
         then true else deposit c.
Proof.
  intros Hs Hl Hnot.
  exists (month_self s month year l c), (<[l := month_bill s month year b]> h).
  split; [now apply term_new_month_run|].
  unfold month_self. rewrite Hnot, <- end_reached_leb.
  now destruct (end_reached (end_ c) month year).
Qed.

Lemma term_new_month_deposit_flag_witness :
  exists c' h',
    new_month 6 2019 0%nat
      (mk (Some (Date.mk 2017 1 1)) (Date.mk 2019 6 25) None false 0,
       {[ 0%nat := Bill.init ]})
    = (Ok tt, (c', h'))
    /\ deposit c' = true.
Proof.
  exact (term_new_month_deposit_flag
           (mk (Some (Date.mk 2017 1 1)) (Date.mk 2019 6 25) None false 0)
           {[ 0%nat := Bill.init ]} 0%nat Bill.init (Date.mk 2017 1 1)
           6 2019 eq_refl eq_refl eq_refl).
Defined.

(** C2 as stated fails: with the term ending on 2019-06-25, opening June
    2019 sets the flag, although the billed date 2019-06-01 has not
    reached the end date, and neither has any day of June before the
    25th. *)
Lemma term_new_month_whole_date_fails :
  let e := Date.mk 2019 6 25 in
  let w :=
    snd (run [NewMonth 1 2017 0%nat]
           (init (Date.mk 2017 1 1) e, {[ 0%nat := Bill.init ]})) in
  let r := new_month 6 2019 1%nat (fst w, <[1%nat := Bill.init]> (snd w)) in
  start (fst w) = Some (Date.mk 2017 1 1)
  /\ is_start_month (Date.mk 2017 1 1) 6 2019 = false
  /\ deposit (fst w) = false
  /\ fst r = Ok tt
  /\ deposit (fst (snd r)) = true
  /\ Date.leb e (Date.of_month 6 2019) = false
  /\ (forall d, d < 25 -> Date.leb e (Date.mk 2019 6 d) = false).
Proof.
  repeat split; try (vm_compute; reflexivity).
  intros d Hd. unfold Date.leb. simpl.
  destruct (Z.leb_spec 25 d); [lia|reflexivity].
Qed.



End TermMonths.

Module TermMinutes.
Import TermContract TermDriver TermOutcome TermMonthLemmas TermRunLemmas.



(** The same two months on the bills: January's 50 minutes and February's
    80 minutes are all free, and cancelling in March refunds nothing. *)
Example term_two_months_then_cancel :
  let c := init (Date.mk 2017 1 1) (Date.mk 2019 1 1) in
  let h : heap :=
    {[ 0%nat := Bill.init; 1%nat := Bill.init; 2%nat := Bill.init ]} in
  let ops := [NewMonth 1 2017 0%nat; BillCall (mkCall 3000);
              NewMonth 2 2017 1%nat; BillCall (mkCall 4800);
              NewMonth 3 2017 2%nat; Cancel] in
  let r := run ops (c, h) in
  fst r = Ok tt
  /\ (Bill.billed_min <$> snd (snd r) !! 0%nat) = Some 0
  /\ (Bill.free_min <$> snd (snd r) !! 0%nat) = Some 50
  /\ (Bill.billed_min <$> snd (snd r) !! 1%nat) = Some 0
  /\ (Bill.free_min <$> snd (snd r) !! 1%nat) = Some 80
  /\ (Bill.fixed_cost <$> snd (snd r) !! 2%nat) = Some (0 + 20)%Q
  /\ deposit (fst (snd r)) = false
  /\ start (fst (snd r)) = None.
Proof. vm_compute. repeat split; reflexivity. Qed.
End TermMinutes.

(** * MTMContract *)

Lemma base_cancel_contract_self (c : Contract.t) (h : heap) :
  fst (snd (Contract.cancel_contract (c, h))) = Contract.set_start None c.
Proof.
  unfold Contract.cancel_contract. step_method.
  destruct (Contract.bill c) as [l|]; [|reflexivity]. simpl.
  unfold bill_query. simpl. now destruct (h !! l).
Qed.

Module MTMLemmas.
Import MTMContract MTMDriver.

Lemma mtm_new_month_run (c : t) (h : heap) (l : loc) (b : Bill.t)
      (month year : Z) :
  h !! l = Some b ->
  new_month month year l (c, h)
  = (Ok tt,
     (set_bill (Some l) c,
      <[l := Bill.add_fixed_cost MTM_MONTHLY_FEE
               (Bill.set_rates "MTM" MTM_MINS_COST b)]> h)).
Proof. intros Hl. unfold new_month. step_method. reflexivity. Qed.

Lemma mtm_bill_call_run (c : t) (h : heap) (l : loc) (b : Bill.t)
      (call : Call) :
  bill c = Some l -> h !! l = Some b ->
  bill_call call (c, h)
  = (Ok tt, (c, <[l := Bill.add_billed_minutes (ceil_minutes call) b]> h)).
Proof.
  intros Hb Hl. unfold bill_call. step_method. rewrite Hb. step_method.
  reflexivity.
Qed.

(** Billing calls keeps the bill's rate and fixed costs. *)
Lemma mtm_bill_calls_run (calls : list Call) :
  forall (c : t) (h : heap) (l : loc) (b : Bill.t),
    bill c = Some l ->
    exists b',
      bill_calls calls (c, <[l := b]> h) = (Ok tt, (c, <[l := b']> h))
      /\ Bill.min_rate b' = Bill.min_rate b
      /\ Bill.fixed_cost b' = Bill.fixed_cost b.
Proof.
  induction calls as [|call calls IH]; intros c h l b Hb.
  - now exists b.
  - destruct (IH c h l (Bill.add_billed_minutes (ceil_minutes call) b) Hb)
      as (b' & Hrun & Hrate & Hfixed).
    exists b'. split; [|now split].
    simpl.
    erewrite bind_run
      by (apply mtm_bill_call_run; [exact Hb|apply lookup_insert_eq]).
    now rewrite insert_insert_eq.
Qed.

Lemma mtm_cancel_contract_self (c : t) (h : heap) :
  fst (snd (cancel_contract (c, h))) = set_start None c.
Proof.
  unfold cancel_contract. step_method.
  destruct (bill c) as [l|]; [|reflexivity]. simpl.
  unfold bill_query. simpl. now destruct (h !! l).
Qed.

Lemma mtm_cancel_contract_run (c : t) (h : heap) (l : loc) (b : Bill.t) :
  bill c = Some l -> h !! l = Some b ->
  cancel_contract (c, h) = (Ok (Bill.get_cost b), (set_start None c, h)).
Proof.
  intros Hb Hl. unfold cancel_contract. step_method. rewrite Hb.
  step_method. reflexivity.
Qed.
End MTMLemmas.

Module MTMBilling.
Import MTMContract MTMDriver MTMLemmas.

(** C7, as the code has it.  On the bill that [new_month] bound, after
    any calls of the month, [bill_call] of a call of [d] seconds returns
    and adds exactly [ceil(d / 60)] billed minutes (the least [m] with
    [60 * (m - 1) < d <= 60 * m]) at the rate 0.05 that [new_month] set;
    free minutes, rate and fixed costs stay as they are.  In exact
    arithmetic the total cost therefore rises by [ceil(d / 60) / 20]. *)
Theorem mtm_bill_call_cost (c : t) (h : heap) (l : loc) (b : Bill.t)
        (month year : Z) (calls : list Call) (call : Call) :
  h !! l = Some b ->
  exists c1 b1 c2 b2,
    (new_month month year l ;; bill_calls calls) (c, h)
    = (Ok tt, (c1, <[l := b1]> h))
    /\ bill_call call (c1, <[l := b1]> h) = (Ok tt, (c2, <[l := b2]> h))
    /\ Bill.billed_min b2 = Bill.billed_min b1 + ceil_minutes call
    /\ (0 <= duration call < 2 ^ 53 ->
        60 * (ceil_minutes call - 1) < duration call <= 60 * ceil_minutes call)
    /\ Bill.free_min b2 = Bill.free_min b1
    /\ Bill.min_rate b1 = (5 # 100)%Q
    /\ Bill.min_rate b2 = (5 # 100)%Q
    /\ Bill.fixed_cost b2 = Bill.fixed_cost b1
    /\ (Bill.get_cost b2
        == Bill.get_cost b1 + inject_Z (ceil_minutes call) * (5 # 100))%Q.
Proof.
  intros Hl.
  destruct (mtm_bill_calls_run calls (set_bill (Some l) c) h l
              (Bill.add_fixed_cost MTM_MONTHLY_FEE
                 (Bill.set_rates "MTM" MTM_MINS_COST b)) eq_refl)
    as (b1 & Hcalls & Hrate & _).
  exists (set_bill (Some l) c), b1, (set_bill (Some l) c),
    (Bill.add_billed_minutes (ceil_minutes call) b1).
  split.
  { rewrite (bind_run _ _ _ _ _ (mtm_new_month_run c h l b month year Hl)).
    exact Hcalls. }
  split.
  { rewrite (mtm_bill_call_run _ _ l b1)
      by (try reflexivity; apply lookup_insert_eq).
    now rewrite insert_insert_eq. }
  simpl in Hrate. simpl.
  split; [reflexivity|].
  split.
  { intros _. rewrite ceil_minutes_div.
    pose proof (Z.div_mod (- duration call) 60 ltac:(lia)) as Hdiv.
    pose proof (Z.mod_pos_bound (- duration call) 60 ltac:(lia)) as Hmod.
    lia. }
  split; [reflexivity|].
  split; [exact Hrate|].
  split; [exact Hrate|].
  split; [reflexivity|].
  unfold Bill.get_cost. simpl. rewrite Hrate.
  unfold MTM_MINS_COST. rewrite inject_Z_plus. ring.
Qed.

(** A minute billed, then a call of 61 seconds: two more minutes. *)
Lemma mtm_bill_call_cost_witness :
  exists c1 b1 c2 b2,
    (new_month 1 2017 0%nat ;; bill_calls [mkCall 30])
      (init (Date.mk 2017 1 1), {[ 0%nat := Bill.init ]})
    = (Ok tt, (c1, <[0%nat := b1]> {[ 0%nat := Bill.init ]}))
    /\ bill_call (mkCall 61) (c1, <[0%nat := b1]> {[ 0%nat := Bill.init ]})
       = (Ok tt, (c2, <[0%nat := b2]> {[ 0%nat := Bill.init ]}))
    /\ Bill.billed_min b1 = 1
    /\ Bill.billed_min b2 = 3
    /\ Bill.min_rate b2 = (5 # 100)%Q
    /\ (Bill.fixed_cost b2 == 50)%Q
    /\ (Bill.get_cost b2 == Bill.get_cost b1 + (1 # 10))%Q.
Proof.
  destruct (mtm_bill_call_cost (init (Date.mk 2017 1 1))
              {[ 0%nat := Bill.init ]} 0%nat Bill.init 1 2017 [mkCall 30]
              (mkCall 61) (lookup_singleton_eq _ _))
    as (c1 & b1 & c2 & b2 & Hrun & Hcall & Hbilled & _ & _ & _ & Hrate
        & Hfixed & Hcost).
  exists c1, b1, c2, b2.
  assert (Hb1 : b1 = Bill.mk 1 0 (5 # 100) (0 + 50) "MTM").
  { apply (f_equal (fun r => snd (snd r) !! 0%nat)) in Hrun.
    simpl in Hrun. rewrite lookup_insert_eq in Hrun.
    vm_compute in Hrun. now inversion Hrun. }
  split; [exact Hrun|]. split; [exact Hcall|].
  split; [now rewrite Hb1|].
  split; [rewrite Hbilled, Hb1; reflexivity|].
  split; [exact Hrate|].
  split; [rewrite Hfixed, Hb1; reflexivity|].
  rewrite Hcost, Hb1. vm_compute. reflexivity.
Defined.

(** C7 as stated fails on the floats the code computes with.  A minute
    is billed, then a call of 60 seconds: the bill's cost goes from
    [0.05 * 1 + 50] to [0.05 * 2 + 50], which is above the cost before
    plus [1 * 0.05], and the difference of the two costs is not
    [1 * 0.05] either. *)
Lemma mtm_bill_call_cost_binary64_fails :
  let r1 := (new_month 1 2017 0%nat ;; bill_calls [mkCall 60])
              (init (Date.mk 2017 1 1), {[ 0%nat := Bill.init ]}) in
  let call := mkCall 60 in
  let r2 := bill_call call (snd r1) in
  let rate := Binary64.of_Q MTM_MINS_COST in
  let rise := PrimFloat.mul (Binary64.of_Z (ceil_minutes call)) rate in
  exists b1 b2,
    fst r1 = Ok tt /\ snd (snd r1) !! 0%nat = Some b1
    /\ fst r2 = Ok tt /\ snd (snd r2) !! 0%nat = Some b2
    /\ ceil_minutes call = 1
    /\ Binary64.get_cost b1
       = PrimFloat.add (PrimFloat.mul rate (Binary64.of_Z 1))
           (Binary64.of_Z 50)
    /\ Binary64.get_cost b2
       = PrimFloat.add (PrimFloat.mul rate (Binary64.of_Z 2))
           (Binary64.of_Z 50)
    /\ PrimFloat.ltb (PrimFloat.add (Binary64.get_cost b1) rise)
         (Binary64.get_cost b2) = true
    /\ PrimFloat.eqb
         (PrimFloat.sub (Binary64.get_cost b2) (Binary64.get_cost b1)) rise
       = false.
Proof.
  vm_compute. do 2 eexists. repeat split; reflexivity.
Qed.
End MTMBilling.

(** * PrepaidContract *)

Module PrepaidLemmas.
Import PrepaidContract PrepaidOutcome.

Lemma prepaid_new_month_run (c : t) (h : heap) (l : loc) (b : Bill.t)
      (month year : Z) :
  h !! l = Some b ->
  new_month month year l (c, h)
  = (Ok tt,
     (set_bill (Some l) (set_balance (topped_up c) c),
      <[l := month_bill c b]> h)).
Proof.
  intros Hl. unfold new_month, month_bill, topped_up. step_method.
  destruct (-10 <? balance c); step_method; [reflexivity|].
  now destruct c.
Qed.

Lemma prepaid_cancel_contract_self (c : t) (h : heap) :
  fst (snd (cancel_contract (c, h))) = set_start None c.
Proof.
  unfold cancel_contract. step_method.
  destruct (bill c) as [l|]; [|reflexivity]. simpl.
  unfold bind, bill_query. simpl.
  destruct (h !! l) as [b|] eqn:Hl; [|reflexivity].
  destruct (Qlt_le_dec (Bill.get_cost b) 0); simpl; [reflexivity|].
  now rewrite Hl.
Qed.

Lemma prepaid_cancel_contract_run (c : t) (h : heap) (l : loc) (b : Bill.t) :
  bill c = Some l -> h !! l = Some b ->
  cancel_contract (c, h)
  = (Ok (if Qlt_le_dec (Bill.get_cost b) 0 then 0%Q else Bill.get_cost b),
     (set_start None c, h)).
Proof.
  intros Hb Hl. unfold cancel_contract. step_method. rewrite Hb.
  step_method.
  destruct (Qlt_le_dec (Bill.get_cost b) 0); step_method; reflexivity.
Qed.
End PrepaidLemmas.

Module PrepaidBilling.
Import PrepaidContract PrepaidOutcome PrepaidLemmas.

(** C5: [new_month] returns; with [balance > -10] on entry the balance
    goes down by exactly 25 and 25 is added to the bill's fixed costs,
    with [balance <= -10] the balance stays and no top-up is charged;
    either way the balance as it then stands is added to the fixed
    costs, with its sign. *)
Theorem prepaid_new_month_top_up (c : t) (h : heap) (l : loc) (b : Bill.t)
        (month year : Z) :
  h !! l = Some b ->
  exists c' b',
    new_month month year l (c, h) = (Ok tt, (c', <[l := b']> h))
    /\ (-10 < balance c ->
        balance c' = balance c - 25
        /\ (Bill.fixed_cost b'
            == Bill.fixed_cost b + 25 + inject_Z (balance c'))%Q)
    /\ (balance c <= -10 ->
        balance c' = balance c
        /\ (Bill.fixed_cost b'
            == Bill.fixed_cost b + inject_Z (balance c'))%Q).
Proof.
  intros Hl.
  exists (set_bill (Some l) (set_balance (topped_up c) c)), (month_bill c b).
  split; [now apply prepaid_new_month_run|].
  unfold month_bill, topped_up. simpl.
  split; intros Hbal.
  - apply Z.ltb_lt in Hbal. rewrite Hbal. simpl. split; reflexivity.
  - apply Z.ltb_ge in Hbal. rewrite Hbal. simpl. split; reflexivity.
Qed.

Lemma prepaid_new_month_top_up_witness :
  exists c' b',
    new_month 1 2017 0%nat
      (init (Date.mk 2017 1 1) 5, {[ 0%nat := Bill.init ]})
    = (Ok tt, (c', <[0%nat := b']> {[ 0%nat := Bill.init ]}))
    /\ balance c' = -30
    /\ (Bill.fixed_cost b' == -5)%Q.
Proof.
  destruct (prepaid_new_month_top_up (init (Date.mk 2017 1 1) 5)
              {[ 0%nat := Bill.init ]} 0%nat Bill.init 1 2017
              (lookup_singleton_eq _ _))
    as (c' & b' & Hrun & Htop & _).
  exists c', b'. split; [exact Hrun|].
  destruct Htop as [Hbal Hcost]; [simpl; lia|].
  split; [exact Hbal|].
  rewrite Hcost, Hbal. reflexivity.
Defined.

(** C6: with an active bill, [cancel_contract] returns exactly 0 when
    the bill's total cost is negative and the total cost when it is not;
    what it returns is never negative. *)
Theorem prepaid_cancel_contract_never_negative (c : t) (h : heap) (l : loc)
        (b : Bill.t) :
  bill c = Some l -> h !! l = Some b ->
  exists r c',
    cancel_contract (c, h) = (Ok r, (c', h))
    /\ (Bill.get_cost b < 0 -> r = 0)%Q
    /\ (0 <= Bill.get_cost b -> r = Bill.get_cost b)%Q
    /\ (0 <= r)%Q.
Proof.
  intros Hb Hl.
  exists (if Qlt_le_dec (Bill.get_cost b) 0 then 0%Q else Bill.get_cost b),
    (set_start None c).
  split; [now apply (prepaid_cancel_contract_run c h l b)|].
  destruct (Qlt_le_dec (Bill.get_cost b) 0) as [Hneg|Hpos].
  - repeat split; intros; try reflexivity; lra.
  - repeat split; intros; try reflexivity; lra.
Qed.

(** A balance of -15 and no calls: the cost is -15 and 0 is returned. *)
Lemma prepaid_cancel_contract_never_negative_witness :
  exists r c',
    cancel_contract
      (mk (Some (Date.mk 2017 1 1)) (Some 0%nat) (-15),
       {[ 0%nat := Bill.mk 0 0 PREPAID_MINS_COST (-15) "PREPAID" ]})
    = (Ok r,
       (c', {[ 0%nat := Bill.mk 0 0 PREPAID_MINS_COST (-15) "PREPAID" ]}))
    /\ r = 0%Q.
Proof.
  destruct (prepaid_cancel_contract_never_negative
              (mk (Some (Date.mk 2017 1 1)) (Some 0%nat) (-15))
              {[ 0%nat := Bill.mk 0 0 PREPAID_MINS_COST (-15) "PREPAID" ]}
              0%nat (Bill.mk 0 0 PREPAID_MINS_COST (-15) "PREPAID")
              eq_refl (lookup_singleton_eq _ _))
    as (r & c' & Hrun & Hneg & _).
  exists r, c'. split; [exact Hrun|].
  apply Hneg. reflexivity.
Defined.
End PrepaidBilling.

(** * All plans *)

Module AllPlans.



(** C9, as the code has it: [cancel_contract] of every plan, and of the
    abstract class, clears [start], and the contract still refers to the
    bill it had; this holds whether the method returns or raises. *)
Theorem cancel_contract_clears_start (h : heap) :
  (forall c : Contract.t,
      let c' := fst (snd (Contract.cancel_contract (c, h))) in
      Contract.start c' = None
      /\ Contract.bill c' = Contract.bill c)
  /\ (forall c : MTMContract.t,
      let c' := fst (snd (MTMContract.cancel_contract (c, h))) in
      MTMContract.start c' = None
      /\ MTMContract.bill c' = MTMContract.bill c)
  /\ (forall c : TermContract.t,
         let c' := fst (snd (TermContract.cancel_contract (c, h))) in
         TermContract.start c' = None
         /\ TermContract.bill c' = TermContract.bill c)
  /\ (forall c : PrepaidContract.t,
         let c' := fst (snd (PrepaidContract.cancel_contract (c, h))) in
         PrepaidContract.start c' = None
         /\ PrepaidContract.bill c' = PrepaidContract.bill c).
Proof.
  repeat split; simpl.
  all: rewrite ?base_cancel_contract_self,
         ?MTMLemmas.mtm_cancel_contract_self,
         ?TermMonthLemmas.term_cancel_contract_self,
         ?PrepaidLemmas.prepaid_cancel_contract_self; reflexivity.
Qed.

(** C9 as stated fails: after a month is opened and the contract is
    cancelled, each plan's contract still holds the bill. *)
Lemma cancel_contract_keeps_bill :
  let h : heap := {[ 0%nat := Bill.init ]} in
  let s := Date.mk 2017 1 1 in
  let mtm :=
    (MTMContract.new_month 1 2017 0%nat ;; MTMContract.cancel_contract)
      (MTMContract.init s, h) in
  let term :=
    (TermContract.new_month 1 2017 0%nat ;; TermContract.cancel_contract)
      (TermContract.init s (Date.mk 2019 1 1), h) in
  let prepaid :=
    (PrepaidContract.new_month 1 2017 0%nat ;;
     PrepaidContract.cancel_contract)
      (PrepaidContract.init s 40, h) in
  (exists r, fst mtm = Ok r)
  /\ MTMContract.bill (fst (snd mtm)) = Some 0%nat
  /\ MTMContract.bill (fst (snd mtm)) <> None
  /\ (exists r, fst term = Ok r)
  /\ TermContract.bill (fst (snd term)) = Some 0%nat
  /\ (exists r, fst prepaid = Ok r)
  /\ PrepaidContract.bill (fst (snd prepaid)) = Some 0%nat.
Proof.
  vm_compute. repeat split; try (eexists; reflexivity). discriminate.
Qed.
End AllPlans.

(** * Further properties of the code *)

(** ** Minutes *)

(** The exact ceiling of [duration / 60] is the least number of whole
    minutes that covers the duration. *)
Lemma ceil_minutes_covers (call : Call) :
  60 * (ceil_minutes call - 1) < duration call <= 60 * ceil_minutes call.
Proof.
  rewrite ceil_minutes_div.
  pose proof (Z.div_mod (- duration call) 60 ltac:(lia)) as Hdiv.
  pose proof (Z.mod_pos_bound (- duration call) 60 ltac:(lia)) as Hmod.
  lia.
Qed.

Lemma ceil_agrees_from_spec (n : nat) :
  forall d,
    Binary64.ceil_agrees_from n d = true ->
    forall x,
      d <= x < d + Z.of_nat n ->
      Binary64.is_ceil (Binary64.minutes_quotient x) (ceil_minutes (mkCall x))
      = true.
Proof.
  induction n as [|k IH]; intros d Hall x Hx; [lia|].
  simpl in Hall.
  destruct (Binary64.is_ceil (Binary64.minutes_quotient d)
              (ceil_minutes (mkCall d))) eqn:Hd; [|discriminate].
  destruct (Z.eq_dec x d) as [->|Hne]; [exact Hd|].
  apply (IH (d + 1) Hall). lia.
Qed.

(** Every duration of up to a day, one by one. *)
Lemma ceil_agrees_day : Binary64.ceil_agrees_from (Z.to_nat 86400) 0 = true.
Proof. vm_compute. reflexivity. Qed.

(** X1: the minutes of a call, as the floats give them.  For every
    duration from 0 up to a day (86400 seconds), the float quotient
    [duration / 60.0] lies in [(m - 1, m]] for [m] the model's
    [ceil_minutes], so that [ceil(duration / 60.0)] is [m]; and [m] is the
    least number of whole minutes that covers the duration. *)
Theorem ceil_minutes_binary64 (call : Call) :
  0 <= duration call < 86400 ->
  Binary64.is_ceil (Binary64.minutes_quotient (duration call))
    (ceil_minutes call) = true
  /\ 60 * (ceil_minutes call - 1) < duration call <= 60 * ceil_minutes call.
Proof.
  intros Hd. split; [|apply ceil_minutes_covers].
  destruct call as [d]. simpl in *.
  apply (ceil_agrees_from_spec (Z.to_nat 86400) 0 ceil_agrees_day). lia.
Qed.

(** Where the floats and the exact ceiling part: [2^53 + 29] seconds
    become the float [2^53 + 28], whose quotient by 60 is a whole number,
    one minute short of the exact ceiling. *)
Example ceil_minutes_binary64_limit :
  Binary64.is_ceil (Binary64.minutes_quotient (2 ^ 53 + 29))
    (ceil_minutes (mkCall (2 ^ 53 + 29))) = false
  /\ Binary64.is_ceil (Binary64.minutes_quotient (2 ^ 53 + 29))
       (ceil_minutes (mkCall (2 ^ 53 + 29)) - 1) = true.
Proof. vm_compute. split; reflexivity. Qed.

(** 61 seconds are 2 minutes: [1 < 61 / 60.0 <= 2]. *)
Lemma ceil_minutes_binary64_witness :
  Binary64.is_ceil (Binary64.minutes_quotient 61) 2 = true
  /\ 60 * (2 - 1) < 61 <= 60 * 2.
Proof.
  exact (ceil_minutes_binary64 (mkCall 61) ltac:(simpl; lia)).
Defined.

Lemma total_minutes_nonneg (calls : list Call) :
  Forall (fun call => 0 <= duration call) calls -> 0 <= total_minutes calls.
Proof.
  induction 1 as [|call calls Hd _ IH]; simpl; [lia|].
  pose proof (ceil_minutes_nonneg call Hd). lia.
Qed.

Module TermAllowance.
Import TermContract TermDriver TermOutcome TermLemmas TermMonthLemmas.

(** Billing a month's calls, from a counter [minutes c] that is not
    negative: the bill gains the part of the usage above [TERM_MINS] as
    billed minutes and the part below it as free minutes. *)
Lemma term_bill_calls_run (calls : list Call) :
  forall (c : t) (h : heap) (l : loc) (b : Bill.t),
    bill c = Some l -> 0 <= minutes c ->
    Forall (fun call => 0 <= duration call) calls ->
    exists b',
      run (map BillCall calls) (c, <[l := b]> h)
      = (Ok tt,
         (set_minutes (minutes c + total_minutes calls) c, <[l := b']> h))
      /\ Bill.billed_min b'
         = Bill.billed_min b
           + (Z.max (minutes c + total_minutes calls - TERM_MINS) 0
              - Z.max (minutes c - TERM_MINS) 0)
      /\ Bill.free_min b'
         = Bill.free_min b
           + (Z.min (minutes c + total_minutes calls) TERM_MINS
              - Z.min (minutes c) TERM_MINS)
      /\ Bill.min_rate b' = Bill.min_rate b
      /\ Bill.fixed_cost b' = Bill.fixed_cost b.
Proof.
  induction calls as [|call calls IH]; intros c h l b Hb Hm Hcalls.
  - exists b. simpl. rewrite Z.add_0_r.
    split; [now destruct c|]. repeat split; lia.
  - inversion Hcalls as [|? ? Hd Hrest]; subst.
    pose proof (ceil_minutes_nonneg call Hd) as Hmins.
    destruct (IH (set_minutes (minutes c + ceil_minutes call) c) h l
                (billed c call b) Hb ltac:(simpl; lia) Hrest)
      as (b' & Hrun & Hbilled & Hfree & Hrate & Hfixed).
    exists b'. split.
    { cbn [map run step].
      rewrite (bind_run _ _ _ _ _
                 (term_bill_call_run c (<[l := b]> h) l b call Hb
                    (lookup_insert_eq _ _ _))).
      rewrite insert_insert_eq, Hrun. simpl.
      now rewrite Z.add_assoc. }
    simpl in Hbilled, Hfree. rewrite Hbilled, Hfree, Hrate, Hfixed.
    pose proof (total_minutes_nonneg calls Hrest) as Htotal.
    unfold billed, TERM_MINS in *. simpl.
    destruct (Z.ltb_spec 100 (minutes c)); simpl; repeat split; lia.
Qed.

(** X2: a month of a TermContract.  After [new_month] and the month's
    calls (no negative duration), the counter holds the month's minutes,
    of which the first [TERM_MINS] were added to the bill as free minutes
    and the rest as billed minutes. *)
Theorem term_month_allowance (c : t) (h : heap) (l : loc) (b : Bill.t)
        (s : Date.t) (month year : Z) (calls : list Call) :
  start c = Some s -> h !! l = Some b ->
  Forall (fun call => 0 <= duration call) calls ->
  exists c' b',
    run (NewMonth month year l :: map BillCall calls) (c, h)
    = (Ok tt, (c', <[l := b']> h))
    /\ minutes c' = total_minutes calls
    /\ Bill.free_min b'
       = Bill.free_min b + Z.min (total_minutes calls) TERM_MINS
    /\ Bill.billed_min b'
       = Bill.billed_min b + Z.max (total_minutes calls - TERM_MINS) 0.
Proof.
  intros Hs Hl Hcalls.
  destruct (term_bill_calls_run calls (month_self s month year l c) h l
              (month_bill s month year b))
    as (b' & Hrun & Hbilled & Hfree & _); try assumption.
  { reflexivity. }
  { unfold month_self. simpl.
    destruct (is_start_month s month year); simpl; [lia|].
    destruct (end_reached (end_ c) month year); simpl; lia. }
  assert (Hzero : minutes (month_self s month year l c) = 0).
  { unfold month_self. simpl.
    destruct (is_start_month s month year); simpl; [reflexivity|].
    now destruct (end_reached (end_ c) month year). }
  rewrite Hzero in Hrun, Hbilled, Hfree.
  pose proof (total_minutes_nonneg calls Hcalls) as Htotal.
  eexists _, b'. split.
  { cbn [run step].
    rewrite (bind_run _ _ _ _ _
               (term_new_month_run c h l b s month year Hs Hl)).
    exact Hrun. }
  split; [reflexivity|].
  assert (Hb0 : Bill.billed_min (month_bill s month year b) = Bill.billed_min b
                /\ Bill.free_min (month_bill s month year b) = Bill.free_min b).
  { unfold month_bill. now destruct (is_start_month s month year). }
  destruct Hb0 as [Hb1 Hb2]. rewrite Hbilled, Hfree, Hb1, Hb2.
  unfold TERM_MINS. split; lia.
Qed.

Lemma term_month_allowance_witness :
  exists c' b',
    run (NewMonth 1 2017 0%nat :: map BillCall [mkCall 6300; mkCall 40])
      (init (Date.mk 2017 1 1) (Date.mk 2019 1 1), {[ 0%nat := Bill.init ]})
    = (Ok tt, (c', <[0%nat := b']> {[ 0%nat := Bill.init ]}))
    /\ minutes c' = 106
    /\ Bill.free_min b' = 100
    /\ Bill.billed_min b' = 6.
Proof.
  apply (term_month_allowance
           (init (Date.mk 2017 1 1) (Date.mk 2019 1 1))
           {[ 0%nat := Bill.init ]} 0%nat Bill.init (Date.mk 2017 1 1)
           1 2017 [mkCall 6300; mkCall 40]).
  - reflexivity.
  - reflexivity.
  - repeat constructor; simpl; lia.
Defined.
End TermAllowance.

Module TermMoney.
Import TermContract TermDriver TermOutcome TermLemmas TermMonthLemmas.
Import TermRunLemmas TermAllowance.

(** X3: the bill of a month of a TermContract.  On a fresh bill, after
    [new_month] and the month's calls (no negative duration), the billed
    minutes are the minutes above 100 and the free minutes the rest, the
    rate is 0.1, and the fixed costs are 20.00, with 300.00 more in the
    start month: the calls never change them.  A month of at most 100
    minutes costs its fixed costs and nothing else. *)
Theorem term_month_bill (c : t) (h : heap) (l : loc) (s : Date.t)
        (month year : Z) (calls : list Call) :
  start c = Some s -> h !! l = Some Bill.init ->
  Forall (fun call => 0 <= duration call) calls ->
  exists c' b',
    run (NewMonth month year l :: map BillCall calls) (c, h)
    = (Ok tt, (c', <[l := b']> h))
    /\ Bill.billed_min b' = Z.max (total_minutes calls - 100) 0
    /\ Bill.free_min b' = Z.min (total_minutes calls) 100
    /\ Bill.min_rate b' = (1 # 10)%Q
    /\ (Bill.fixed_cost b'
        == 20 + (if is_start_month s month year then 300 else 0))%Q
    /\ (total_minutes calls <= 100 ->
        (Bill.get_cost b'
         == 20 + (if is_start_month s month year then 300 else 0))%Q).
Proof.
  intros Hs Hl Hcalls.
  destruct (term_bill_calls_run calls (month_self s month year l c) h l
              (month_bill s month year Bill.init))
    as (b' & Hrun & Hbilled & Hfree & Hrate & Hfixed); try assumption.
  { reflexivity. }
  { unfold month_self. simpl.
    destruct (is_start_month s month year); simpl; [lia|].
    destruct (end_reached (end_ c) month year); simpl; lia. }
  assert (Hzero : minutes (month_self s month year l c) = 0).
  { unfold month_self. simpl.
    destruct (is_start_month s month year); simpl; [reflexivity|].
    now destruct (end_reached (end_ c) month year). }
  rewrite Hzero in Hrun, Hbilled, Hfree.
  pose proof (total_minutes_nonneg calls Hcalls) as Htotal.
  assert (Hb : Bill.billed_min b' = Z.max (total_minutes calls - 100) 0).
  { rewrite Hbilled. unfold month_bill, TERM_MINS.
    destruct (is_start_month s month year); simpl; lia. }
  assert (Hf : (Bill.fixed_cost b'
                == 20 + (if is_start_month s month year then 300 else 0))%Q).
  { rewrite Hfixed. unfold month_bill, TERM_MONTHLY_FEE, TERM_DEPOSIT.
    destruct (is_start_month s month year); simpl; ring. }
  eexists _, b'. split.
  { cbn [run step].
    rewrite (bind_run _ _ _ _ _
               (term_new_month_run c h l Bill.init s month year Hs Hl)).
    exact Hrun. }
  split; [exact Hb|].
  split.
  { rewrite Hfree. unfold month_bill, TERM_MINS.
    destruct (is_start_month s month year); simpl; lia. }
  split.
  { rewrite Hrate. unfold month_bill.
    now destruct (is_start_month s month year). }
  split; [exact Hf|].
  intros Hwithin. unfold Bill.get_cost. rewrite Hb, Hf.
  replace (Z.max (total_minutes calls - 100) 0) with 0 by lia.
  ring.
Qed.

(** 50 minutes and 40 seconds in the start month: 51 free minutes, none
    billed, and the month costs 320.00. *)
Lemma term_month_bill_witness :
  exists c' b',
    run (NewMonth 1 2017 0%nat :: map BillCall [mkCall 3000; mkCall 40])
      (init (Date.mk 2017 1 1) (Date.mk 2019 1 1), {[ 0%nat := Bill.init ]})
    = (Ok tt, (c', <[0%nat := b']> {[ 0%nat := Bill.init ]}))
    /\ Bill.billed_min b' = 0
    /\ Bill.free_min b' = 51
    /\ Bill.min_rate b' = (1 # 10)%Q
    /\ (Bill.fixed_cost b' == 320)%Q
    /\ (Bill.get_cost b' == 320)%Q.
Proof.
  destruct (term_month_bill
              (init (Date.mk 2017 1 1) (Date.mk 2019 1 1))
              {[ 0%nat := Bill.init ]} 0%nat (Date.mk 2017 1 1)
              1 2017 [mkCall 3000; mkCall 40] eq_refl
              (lookup_singleton_eq _ _)
              ltac:(repeat constructor; simpl; lia))
    as (c' & b' & Hrun & Hbilled & Hfree & Hrate & Hfixed & Hcost).
  exists c', b'. split; [exact Hrun|].
  split; [exact Hbilled|]. split; [exact Hfree|]. split; [exact Hrate|].
  split; [exact Hfixed|].
  apply Hcost. vm_compute. discriminate.
Defined.

(** X4: [bill_call] accounts for every minute of the call once.  For a
    call whose duration is not negative, the billed and the free minutes
    it adds are each between 0 and the call's minutes and add up to them;
    the bill's rate and fixed costs are not touched. *)
Theorem term_bill_call_accounts_call (c : t) (h : heap) (l : loc)
        (b : Bill.t) (call : Call) :
  bill c = Some l -> h !! l = Some b -> 0 <= duration call ->
  exists c' b',
    bill_call call (c, h) = (Ok tt, (c', <[l := b']> h))
    /\ (Bill.billed_min b' - Bill.billed_min b)
       + (Bill.free_min b' - Bill.free_min b) = ceil_minutes call
    /\ 0 <= Bill.billed_min b' - Bill.billed_min b <= ceil_minutes call
    /\ 0 <= Bill.free_min b' - Bill.free_min b <= ceil_minutes call
    /\ Bill.min_rate b' = Bill.min_rate b
    /\ Bill.fixed_cost b' = Bill.fixed_cost b.
Proof.
  intros Hb Hl Hd.
  exists (set_minutes (minutes c + ceil_minutes call) c), (billed c call b).
  split; [now apply term_bill_call_run|].
  pose proof (ceil_minutes_nonneg call Hd) as Hmins.
  unfold billed, TERM_MINS.
  destruct (Z.ltb_spec 100 (minutes c)); simpl; repeat split; lia.
Qed.

Lemma term_bill_call_accounts_call_witness :
  let c :=
    mk (Some (Date.mk 2017 1 1)) (Date.mk 2019 1 1) (Some 0%nat) false 90 in
  exists c' b',
    bill_call (mkCall 1500) (c, {[ 0%nat := Bill.init ]})
    = (Ok tt, (c', <[0%nat := b']> {[ 0%nat := Bill.init ]}))
    /\ (Bill.billed_min b' - 0) + (Bill.free_min b' - 0) = 25
    /\ 0 <= Bill.billed_min b' - 0 <= 25
    /\ 0 <= Bill.free_min b' - 0 <= 25
    /\ Bill.min_rate b' = 0%Q
    /\ Bill.fixed_cost b' = 0%Q.
Proof.
  intros c.
  exact (term_bill_call_accounts_call c {[ 0%nat := Bill.init ]} 0%nat
           Bill.init (mkCall 1500) eq_refl (lookup_singleton_eq _ _)
           ltac:(simpl; lia)).
Defined.


End TermMoney.

Module TermDeposit.
Import TermContract TermDriver TermOutcome TermLemmas TermMonthLemmas.
Import TermRunLemmas.

(** One operation, whatever its outcome, keeps [end] and a released
    deposit. *)
Lemma term_step_keeps (o : op) (c : t) (h : heap) :
  let c1 := fst (snd (step o (c, h))) in
  end_ c1 = end_ c /\ (deposit c = true -> deposit c1 = true).
Proof.
  destruct o as [month year l|call|]; simpl.
  - destruct (h !! l) as [b|] eqn:Hl;
      [|rewrite term_new_month_unallocated by assumption; auto].
    destruct (start c) as [s|] eqn:Hs;
      [|rewrite (term_new_month_cancelled c h l b) by assumption; auto].
    rewrite (term_new_month_run c h l b s) by assumption.
    unfold month_self. simpl.
    destruct (is_start_month s month year); simpl; [auto|].
    destruct (end_reached (end_ c) month year); simpl; auto.
  - destruct (term_bill_call_frame c h call) as (_ & He & Hd & _).
    simpl in He, Hd. rewrite He, Hd. auto.
  - pose proof (term_cancel_contract_self c h) as Hself.
    unfold bind. destruct (cancel_contract (c, h)) as [[r|ex] [c1 h1]];
      simpl in *; subst c1; auto.
Qed.

Lemma term_run_cons (o : op) (ops : list op) (w : t * heap) :
  run (o :: ops) w
  = match step o w with
    | (Ok _, w1) => run ops w1
    | (Raise ex, w1) => (Raise ex, w1)
    end.
Proof. reflexivity. Qed.

(** X6: a released deposit is never taken back, and [end] never changes.
    After any operations, also when one of them raises, [end] is what it
    was, and the deposit flag of a contract that had it set is still
    set. *)
Theorem term_deposit_never_reverts (ops : list op) (c : t) (h : heap) :
  end_ (fst (snd (run ops (c, h)))) = end_ c
  /\ (deposit c = true -> deposit (fst (snd (run ops (c, h)))) = true).
Proof.
  revert c h. induction ops as [|o ops IH]; intros c h; [now split|].
  destruct (term_step_keeps o c h) as [He Hkeep]. simpl in He, Hkeep.
  rewrite term_run_cons.
  destruct (step o (c, h)) as [[[]|ex] [c1 h1]]; simpl in *.
  - destruct (IH c1 h1) as [He' Hd']. split; [congruence|auto].
  - split; auto.
Qed.

Lemma term_deposit_never_reverts_witness :
  let ops := [NewMonth 7 2019 0%nat; BillCall (mkCall 61); Cancel;
              NewMonth 8 2019 0%nat] in
  let c := mk (Some (Date.mk 2017 1 1)) (Date.mk 2019 6 25) None true 0 in
  let h : heap := {[ 0%nat := Bill.init ]} in
  end_ (fst (snd (run ops (c, h)))) = Date.mk 2019 6 25
  /\ deposit (fst (snd (run ops (c, h)))) = true.
Proof.
  intros ops c h.
  destruct (term_deposit_never_reverts ops c h) as [He Hd].
  split; [exact He|exact (Hd eq_refl)].
Defined.

(** X7: when the deposit is released.  After the operations of a fresh
    contract have all returned, the deposit flag is set exactly when one
    of the [new_month] calls was for a month other than the start month
    that had reached the end month/year. *)
Theorem term_deposit_flag_after_run (s e : Date.t) (ops : list op)
        (h0 h : heap) (c : t) :
  run ops (init s e, h0) = (Ok tt, (c, h)) ->
  deposit c = refund_due s e ops /\ end_ c = e.
Proof.
  intros Hrun.
  destruct (run_ok_inv s ops (init s e) c h0 h Hrun (or_introl eq_refl))
    as (He & _ & Hd & _).
  split; assumption.
Qed.

Lemma term_deposit_flag_after_run_witness :
  let s := Date.mk 2017 1 1 in
  let e := Date.mk 2017 1 31 in
  let ops := [NewMonth 1 2017 0%nat; NewMonth 2 2017 0%nat] in
  let h0 : heap := {[ 0%nat := Bill.init ]} in
  deposit (fst (snd (run ops (init s e, h0)))) = true.
Proof.
  intros s e ops h0.
  exact (proj1 (term_deposit_flag_after_run s e ops h0
                  (snd (snd (run ops (init s e, h0))))
                  (fst (snd (run ops (init s e, h0)))) eq_refl)).
Defined.
End TermDeposit.

Module AfterCancel.

(** X8: [new_month] on a cancelled contract.  With [start] cleared, a
    TermContract's [new_month] raises AttributeError after it has set the
    rate, added the monthly fee to the bill and reset the counter; the
    bill is not bound and the deposit flag is as before.  An MTMContract
    and a PrepaidContract do not look at [start]: their [new_month]
    returns and binds the bill as for a live contract. *)
Theorem new_month_when_cancelled (h : heap) (l : loc) (b : Bill.t)
        (month year : Z) :
  h !! l = Some b ->
  (forall c : TermContract.t,
      TermContract.start c = None ->
      exists c' b',
        TermContract.new_month month year l (c, h)
        = (Raise AttributeError, (c', <[l := b']> h))
        /\ TermContract.minutes c' = 0
        /\ TermContract.bill c' = TermContract.bill c
        /\ TermContract.deposit c' = TermContract.deposit c
        /\ (Bill.fixed_cost b' == Bill.fixed_cost b + TERM_MONTHLY_FEE)%Q
        /\ Bill.min_rate b' = TERM_MINS_COST)
  /\ (forall c : MTMContract.t,
         MTMContract.start c = None ->
         exists c' b',
           MTMContract.new_month month year l (c, h)
           = (Ok tt, (c', <[l := b']> h))
           /\ MTMContract.bill c' = Some l
           /\ MTMContract.start c' = None
           /\ (Bill.fixed_cost b' == Bill.fixed_cost b + MTM_MONTHLY_FEE)%Q)
  /\ (forall c : PrepaidContract.t,
         PrepaidContract.start c = None ->
         exists c' b',
           PrepaidContract.new_month month year l (c, h)
           = (Ok tt, (c', <[l := b']> h))
           /\ PrepaidContract.bill c' = Some l
           /\ PrepaidContract.start c' = None).
Proof.
  intros Hl. repeat split.
  - intros c Hs. do 2 eexists.
    split;
      [exact (TermMonthLemmas.term_new_month_cancelled c h l b month year
                Hs Hl)|].
    simpl. repeat split; reflexivity.
  - intros c Hs. do 2 eexists.
    split; [exact (MTMLemmas.mtm_new_month_run c h l b month year Hl)|].
    simpl. split; [reflexivity|]. split; [exact Hs|reflexivity].
  - intros c Hs. do 2 eexists.
    split;
      [exact (PrepaidLemmas.prepaid_new_month_run c h l b month year Hl)|].
    simpl. split; [reflexivity|exact Hs].
Qed.

Lemma new_month_when_cancelled_witness :
  exists c' b',
    TermContract.new_month 2 2017 0%nat
      (TermContract.mk None (Date.mk 2019 1 1) None false 7,
       {[ 0%nat := Bill.init ]})
    = (Raise AttributeError, (c', <[0%nat := b']> {[ 0%nat := Bill.init ]}))
    /\ TermContract.minutes c' = 0
    /\ TermContract.bill c' = None
    /\ TermContract.deposit c' = false
    /\ (Bill.fixed_cost b' == 0 + TERM_MONTHLY_FEE)%Q
    /\ Bill.min_rate b' = TERM_MINS_COST.
Proof.
  destruct (new_month_when_cancelled {[ 0%nat := Bill.init ]} 0%nat Bill.init
              2 2017 (lookup_singleton_eq _ _))
    as (Hterm & _).
  exact (Hterm (TermContract.mk None (Date.mk 2019 1 1) None false 7)
           eq_refl).
Defined.

(** X9: before the first [new_month] there is no bill.  In every class,
    [bill_call] then raises AttributeError and changes nothing, and
    [cancel_contract] raises AttributeError with [start] already
    cleared. *)
Theorem no_bill_bound (h : heap) :
  (forall (c : Contract.t) (call : Call),
      Contract.bill c = None ->
      Contract.bill_call call (c, h) = (Raise AttributeError, (c, h))
      /\ Contract.cancel_contract (c, h)
         = (Raise AttributeError, (Contract.set_start None c, h)))
  /\ (forall (c : MTMContract.t) (call : Call),
         MTMContract.bill c = None ->
         MTMContract.bill_call call (c, h) = (Raise AttributeError, (c, h))
         /\ MTMContract.cancel_contract (c, h)
            = (Raise AttributeError, (MTMContract.set_start None c, h)))
  /\ (forall (c : TermContract.t) (call : Call),
         TermContract.bill c = None ->
         TermContract.bill_call call (c, h) = (Raise AttributeError, (c, h))
         /\ TermContract.cancel_contract (c, h)
            = (Raise AttributeError, (TermContract.set_start None c, h)))
  /\ (forall (c : PrepaidContract.t) (call : Call),
         PrepaidContract.bill c = None ->
         PrepaidContract.bill_call call (c, h)
         = (Raise AttributeError, (c, h))
         /\ PrepaidContract.cancel_contract (c, h)
            = (Raise AttributeError, (PrepaidContract.set_start None c, h))).
Proof.
  repeat split; intros.
  all: unfold Contract.bill_call, Contract.cancel_contract,
         MTMContract.bill_call, MTMContract.cancel_contract,
         TermContract.bill_call, TermContract.cancel_contract,
         PrepaidContract.bill_call, PrepaidContract.cancel_contract.
  all: step_method.
  all: match goal with H : _ = None |- _ => rewrite H end.
  all: try reflexivity.
  - now destruct (TERM_MINS <? TermContract.minutes c).
  - now destruct (TermContract.deposit c).
Qed.

Lemma no_bill_bound_witness :
  TermContract.bill_call (mkCall 60)
    (TermContract.init (Date.mk 2017 1 1) (Date.mk 2019 1 1), ∅)
  = (Raise AttributeError,
     (TermContract.init (Date.mk 2017 1 1) (Date.mk 2019 1 1), ∅))
  /\ TermContract.cancel_contract
       (TermContract.init (Date.mk 2017 1 1) (Date.mk 2019 1 1), ∅)
     = (Raise AttributeError,
        (TermContract.set_start None
           (TermContract.init (Date.mk 2017 1 1) (Date.mk 2019 1 1)), ∅)).
Proof.
  destruct (no_bill_bound ∅) as (_ & _ & Hterm & _).
  exact (Hterm (TermContract.init (Date.mk 2017 1 1) (Date.mk 2019 1 1))
           (mkCall 60) eq_refl).
Defined.
End AfterCancel.

(** ** PrepaidContract over the months *)

Module PrepaidMonths.
Import PrepaidContract PrepaidOutcome PrepaidLemmas.

(** The balance after [new_month], whatever its outcome. *)
Lemma prepaid_new_month_balance (c : t) (h : heap) (l : loc)
      (month year : Z) :
  balance (fst (snd (new_month month year l (c, h)))) = topped_up c.
Proof.
  unfold new_month, topped_up. step_method.
  destruct (-10 <? balance c); unfold bind, bill_update; simpl;
    destruct (h !! l) as [b|] eqn:Hl; simpl;
    rewrite ?lookup_insert_eq, ?Hl; simpl; rewrite ?lookup_insert_eq;
    reflexivity.
Qed.

(** [bill_call] leaves the contract as it is, whatever its outcome. *)
Lemma prepaid_bill_call_self (c : t) (h : heap) (call : Call) :
  fst (snd (bill_call call (c, h))) = c.
Proof.
  unfold bill_call. step_method.
  destruct (bill c) as [l|]; [|reflexivity]. simpl.
  unfold bill_update. simpl. now destruct (h !! l).
Qed.

Lemma prepaid_bill_call_run (c : t) (h : heap) (l : loc) (b : Bill.t)
      (call : Call) :
  bill c = Some l -> h !! l = Some b ->
  bill_call call (c, h)
  = (Ok tt, (c, <[l := Bill.add_billed_minutes (ceil_minutes call) b]> h)).
Proof.
  intros Hb Hl. unfold bill_call. step_method. rewrite Hb. step_method.
  reflexivity.
Qed.

Lemma prepaid_run_cons (o : Driver.op) (ops : list Driver.op) (w : t * heap) :
  Driver.run (o :: ops) w
  = match Driver.step o w with
    | (Ok _, w1) => Driver.run ops w1
    | (Raise ex, w1) => (Raise ex, w1)
    end.
Proof. reflexivity. Qed.

Lemma months_nonneg (ops : list Driver.op) : 0 <= Driver.months ops.
Proof.
  induction ops as [|o ops IH]; simpl; [lia|].
  fold (Driver.months ops). destruct o; lia.
Qed.

(** One operation, whatever its outcome: only [new_month] moves the
    balance, by the top-up. *)
Lemma prepaid_step_balance (o : Driver.op) (c : t) (h : heap) :
  balance (fst (snd (Driver.step o (c, h))))
  = match o with
    | Driver.NewMonth _ _ _ => topped_up c
    | _ => balance c
    end.
Proof.
  destruct o as [month year l|call|]; simpl.
  - apply prepaid_new_month_balance.
  - now rewrite prepaid_bill_call_self.
  - pose proof (prepaid_cancel_contract_self c h) as Hself.
    unfold bind. destruct (cancel_contract (c, h)) as [[r|ex] [c1 h1]];
      simpl in *; now subst c1.
Qed.

(** X10: the prepaid balance only ever moves by top-ups.  After any
    operations, also when one of them raises, the balance is the balance
    before less 25 for each top-up, at most one per [new_month]; billing
    calls and cancelling never change it, so the cost of the calls is
    never taken from the credit.  A balance at or below -10 stays where
    it is. *)
Theorem prepaid_balance_only_tops_up (ops : list Driver.op) (c : t)
        (h : heap) :
  let c' := fst (snd (Driver.run ops (c, h))) in
  (exists k, 0 <= k <= Driver.months ops /\ balance c' = balance c - 25 * k)
  /\ (balance c <= -10 -> balance c' = balance c).
Proof.
  revert c h. induction ops as [|o ops IH]; intros c h; cbv zeta.
  - simpl. split; [exists 0; simpl; lia|reflexivity].
  - rewrite prepaid_run_cons. cbn [Driver.months fold_right].
    fold (Driver.months ops).
    pose proof (prepaid_step_balance o c h) as Hstep.
    destruct (Driver.step o (c, h)) as [[[]|ex] [c1 h1]]; simpl in Hstep.
    + destruct (IH c1 h1) as [(k & Hk & Hbal) Hstay]. simpl in Hbal, Hstay.
      unfold topped_up in Hstep.
      destruct o as [month year l|call|]; simpl;
        try (split; [exists k; split; lia|intros; rewrite Hstay; lia]).
      destruct (Z.ltb_spec (-10) (balance c)).
      * split; [exists (1 + k); split; lia|lia].
      * split; [exists k; split; lia|intros; rewrite Hstay; lia].
    + simpl. unfold topped_up in Hstep.
      pose proof (months_nonneg ops) as Hmonths.
      destruct o as [month year l|call|]; simpl;
        try (split; [exists 0; split; lia|lia]).
      destruct (Z.ltb_spec (-10) (balance c)).
      * split; [exists 1; split; lia|lia].
      * split; [exists 0; split; lia|lia].
Qed.

Lemma prepaid_balance_only_tops_up_witness :
  balance
    (fst (snd (Driver.run
                 [Driver.NewMonth 1 2017 0%nat; Driver.BillCall (mkCall 90000);
                  Driver.NewMonth 2 2017 1%nat; Driver.Cancel]
                 (init (Date.mk 2017 1 1) 40,
                  {[ 0%nat := Bill.init; 1%nat := Bill.init ]}))))
  = -40.
Proof.
  exact (proj2 (prepaid_balance_only_tops_up
                  [Driver.NewMonth 1 2017 0%nat;
                   Driver.BillCall (mkCall 90000);
                   Driver.NewMonth 2 2017 1%nat; Driver.Cancel]
                  (init (Date.mk 2017 1 1) 40)
                  {[ 0%nat := Bill.init; 1%nat := Bill.init ]})
           ltac:(simpl; lia)).
Defined.
End PrepaidMonths.

Module PrepaidMoney.
Import PrepaidContract PrepaidOutcome PrepaidLemmas PrepaidMonths.

Lemma prepaid_bill_calls_run (calls : list Call) :
  forall (c : t) (h : heap) (l : loc) (b : Bill.t),
    bill c = Some l ->
    exists b',
      Driver.run (map Driver.BillCall calls) (c, <[l := b]> h)
      = (Ok tt, (c, <[l := b']> h))
      /\ Bill.billed_min b' = Bill.billed_min b + total_minutes calls
      /\ Bill.free_min b' = Bill.free_min b
      /\ Bill.min_rate b' = Bill.min_rate b
      /\ Bill.fixed_cost b' = Bill.fixed_cost b.
Proof.
  induction calls as [|call calls IH]; intros c h l b Hb.
  - exists b. simpl. repeat split. lia.
  - destruct (IH c h l (Bill.add_billed_minutes (ceil_minutes call) b) Hb)
      as (b' & Hrun & Hbilled & Hfree & Hrate & Hfixed).
    exists b'. split.
    { cbn [map]. rewrite prepaid_run_cons. cbn [Driver.step].
      change (Driver.bill_call call) with (bill_call call).
      rewrite (prepaid_bill_call_run c (<[l := b]> h) l b call Hb
                 (lookup_insert_eq _ _ _)).
      now rewrite insert_insert_eq. }
    simpl in Hbilled. simpl. repeat split; try assumption. lia.
Qed.

(** X11: the bill of a month of a PrepaidContract.  On a fresh bill, after
    [new_month] and the month's calls, every minute of the calls is a
    billed minute at the rate 0.025, and the fixed costs are the balance
    the contract had on entry: a top-up adds 25 and credits 25 more, so
    it does not show in the month's fixed costs, while the contract's
    balance is 25 lower. *)
Theorem prepaid_month_bill (c : t) (h : heap) (l : loc) (month year : Z)
        (calls : list Call) :
  h !! l = Some Bill.init ->
  exists c' b',
    Driver.run (Driver.NewMonth month year l :: map Driver.BillCall calls)
      (c, h)
    = (Ok tt, (c', <[l := b']> h))
    /\ balance c' = (if -10 <? balance c then balance c - 25 else balance c)
    /\ Bill.billed_min b' = total_minutes calls
    /\ Bill.free_min b' = 0
    /\ Bill.min_rate b' = (25 # 1000)%Q
    /\ (Bill.fixed_cost b' == inject_Z (balance c))%Q.
Proof.
  intros Hl.
  destruct (prepaid_bill_calls_run calls
              (set_bill (Some l) (set_balance (topped_up c) c)) h l
              (month_bill c Bill.init) eq_refl)
    as (b' & Hrun & Hbilled & Hfree & Hrate & Hfixed).
  eexists _, b'. split.
  { rewrite prepaid_run_cons. cbn [Driver.step].
    change (Driver.new_month month year l) with (new_month month year l).
    rewrite (prepaid_new_month_run c h l Bill.init month year Hl).
    exact Hrun. }
  split; [reflexivity|].
  rewrite Hbilled, Hfree, Hrate, Hfixed.
  unfold month_bill, topped_up.
  destruct (-10 <? balance c); simpl;
    (split; [lia|]); (split; [reflexivity|]); (split; [reflexivity|]);
    [|ring].
  unfold Z.sub. rewrite inject_Z_plus.
  change (inject_Z (- (25))) with (- (25))%Q. ring.
Qed.

(** A customer who paid 5: the first month tops up, the balance goes to
    -30, and the bill carries the credit of 5 and 4 billed minutes. *)
Lemma prepaid_month_bill_witness :
  exists c' b',
    Driver.run
      (Driver.NewMonth 1 2017 0%nat
       :: map Driver.BillCall [mkCall 61; mkCall 120])
      (init (Date.mk 2017 1 1) 5, {[ 0%nat := Bill.init ]})
    = (Ok tt, (c', <[0%nat := b']> {[ 0%nat := Bill.init ]}))
    /\ balance c' = -30
    /\ Bill.billed_min b' = 4
    /\ Bill.free_min b' = 0
    /\ Bill.min_rate b' = (25 # 1000)%Q
    /\ (Bill.fixed_cost b' == -5)%Q.
Proof.
  exact (prepaid_month_bill (init (Date.mk 2017 1 1) 5)
           {[ 0%nat := Bill.init ]} 0%nat 1 2017 [mkCall 61; mkCall 120]
           (lookup_singleton_eq _ _)).
Defined.
End PrepaidMoney.

(** ** MTMContract over a month *)

Module MTMMoney.
Import MTMContract MTMDriver MTMLemmas.

Lemma mtm_bill_calls_minutes (calls : list Call) :
  forall (c : t) (h : heap) (l : loc) (b : Bill.t),
    bill c = Some l ->
    exists b',
      bill_calls calls (c, <[l := b]> h) = (Ok tt, (c, <[l := b']> h))
      /\ Bill.billed_min b' = Bill.billed_min b + total_minutes calls
      /\ Bill.free_min b' = Bill.free_min b
      /\ Bill.min_rate b' = Bill.min_rate b
      /\ Bill.fixed_cost b' = Bill.fixed_cost b.
Proof.
  induction calls as [|call calls IH]; intros c h l b Hb.
  - exists b. simpl. repeat split. lia.
  - destruct (IH c h l (Bill.add_billed_minutes (ceil_minutes call) b) Hb)
      as (b' & Hrun & Hbilled & Hfree & Hrate & Hfixed).
    exists b'. split.
    { simpl.
      rewrite (bind_run _ _ _ _ _
                 (mtm_bill_call_run c (<[l := b]> h) l b call Hb
                    (lookup_insert_eq _ _ _))).
      now rewrite insert_insert_eq. }
    simpl in Hbilled. simpl. repeat split; try assumption. lia.
Qed.

(** X12: the bill of a month of an MTMContract, and what cancelling
    returns.  On a fresh bill, after [new_month] and the month's calls,
    every minute of the calls is a billed minute at the rate 0.05, none
    is free, and the fixed costs are 50.00; [cancel_contract] returns the
    bill's cost, leaves the bill as it is and clears [start], and a
    second call returns the same amount. *)
Theorem mtm_month_bill (c : t) (h : heap) (l : loc) (month year : Z)
        (calls : list Call) :
  h !! l = Some Bill.init ->
  exists c1 b1 c2,
    (new_month month year l ;; bill_calls calls) (c, h)
    = (Ok tt, (c1, <[l := b1]> h))
    /\ Bill.billed_min b1 = total_minutes calls
    /\ Bill.free_min b1 = 0
    /\ Bill.min_rate b1 = (5 # 100)%Q
    /\ (Bill.fixed_cost b1 == 50)%Q
    /\ (r1 <- cancel_contract ;; r2 <- cancel_contract ;; ret (r1, r2))
         (c1, <[l := b1]> h)
       = (Ok (Bill.get_cost b1, Bill.get_cost b1), (c2, <[l := b1]> h))
    /\ start c2 = None.
Proof.
  intros Hl.
  destruct (mtm_bill_calls_minutes calls (set_bill (Some l) c) h l
              (Bill.add_fixed_cost MTM_MONTHLY_FEE
                 (Bill.set_rates "MTM" MTM_MINS_COST Bill.init)) eq_refl)
    as (b1 & Hrun & Hbilled & Hfree & Hrate & Hfixed).
  exists (set_bill (Some l) c), b1,
    (set_start None (set_start None (set_bill (Some l) c))).
  split.
  { rewrite (bind_run _ _ _ _ _
               (mtm_new_month_run c h l Bill.init month year Hl)).
    exact Hrun. }
  split; [rewrite Hbilled; simpl; lia|].
  split; [exact Hfree|].
  split; [exact Hrate|].
  split; [rewrite Hfixed; reflexivity|].
  split; [|reflexivity].
  rewrite (bind_run _ _ _ _ _
             (mtm_cancel_contract_run (set_bill (Some l) c)
                (<[l := b1]> h) l b1 eq_refl (lookup_insert_eq _ _ _))).
  rewrite (bind_run _ _ _ _ _
             (mtm_cancel_contract_run
                (set_start None (set_bill (Some l) c))
                (<[l := b1]> h) l b1 eq_refl (lookup_insert_eq _ _ _))).
  reflexivity.
Qed.

(** Calls of 61 and 120 seconds: 4 billed minutes. *)
Lemma mtm_month_bill_witness :
  exists c1 b1 c2,
    (new_month 1 2017 0%nat ;; bill_calls [mkCall 61; mkCall 120])
      (init (Date.mk 2017 1 1), {[ 0%nat := Bill.init ]})
    = (Ok tt, (c1, <[0%nat := b1]> {[ 0%nat := Bill.init ]}))
    /\ Bill.billed_min b1 = 4
    /\ Bill.free_min b1 = 0
    /\ Bill.min_rate b1 = (5 # 100)%Q
    /\ (Bill.fixed_cost b1 == 50)%Q
    /\ (r1 <- cancel_contract ;; r2 <- cancel_contract ;; ret (r1, r2))
         (c1, <[0%nat := b1]> {[ 0%nat := Bill.init ]})
       = (Ok (Bill.get_cost b1, Bill.get_cost b1),
          (c2, <[0%nat := b1]> {[ 0%nat := Bill.init ]}))
    /\ start c2 = None.
Proof.
  exact (mtm_month_bill (init (Date.mk 2017 1 1)) {[ 0%nat := Bill.init ]}
           0%nat 1 2017 [mkCall 61; mkCall 120] (lookup_singleton_eq _ _)).
Defined.
End MTMMoney.

(** ** The store of bills *)

Lemma touched_frame (t : option loc) (h h' : heap) :
  touched t h h' ->
  dom h' = dom h /\ forall l', t <> Some l' -> h' !! l' = h !! l'.
Proof.
  intros [->|(l0 & b & b' & -> & Hl & ->)]; [now split|].
  split.
  - rewrite dom_insert_L.
    assert (Hin : l0 ∈ dom h) by (apply elem_of_dom; eauto).
    apply leibniz_equiv. intros x.
    rewrite elem_of_union, elem_of_singleton.
    split; [intros [->|Hx]; assumption|auto].
  - intros l' Hne. apply lookup_insert_ne. congruence.
Qed.

(** Closes a goal [touched t h h'] where [h'] is [h] or [h] with the
    target bill replaced, once or several times. *)
Ltac touched_store :=
  first
    [ left; reflexivity
    | right; do 3 eexists;
      split; [reflexivity|];
      split; [eassumption|];
      rewrite ?insert_insert_eq; reflexivity ].

(** Runs a method on every path: each test and each lookup is split. *)
Ltac all_paths :=
  unfold bind, get_self, set_self, attr, ret, raise, bill_update, bill_query;
  simpl;
  repeat first
    [ rewrite lookup_insert_eq
    | progress simpl
    | match goal with
      | |- context [match ?x with _ => _ end] =>
          lazymatch x with
          | context [match _ with _ => _ end] => fail
          | _ => destruct x eqn:?
          end
      end ].

Lemma base_step_touched (o : Driver.op) (c : Contract.t) (h : heap) :
  touched (Driver.target o c) h (snd (snd (Driver.step o (c, h)))).
Proof.
  destruct o; simpl;
    unfold Contract.new_month, Contract.bill_call, Contract.cancel_contract;
    all_paths; touched_store.
Qed.

Lemma mtm_step_touched (o : Driver.op) (c : MTMContract.t) (h : heap) :
  touched (Driver.target o c) h (snd (snd (Driver.step o (c, h)))).
Proof.
  destruct o; simpl;
    unfold MTMContract.new_month, MTMContract.bill_call,
      MTMContract.cancel_contract;
    all_paths; touched_store.
Qed.

Lemma term_step_touched (o : Driver.op) (c : TermContract.t) (h : heap) :
  touched (Driver.target o c) h (snd (snd (Driver.step o (c, h)))).
Proof.
  destruct o; simpl;
    unfold TermContract.new_month, TermContract.bill_call,
      TermContract.cancel_contract;
    all_paths; touched_store.
Qed.

Lemma prepaid_step_touched (o : Driver.op) (c : PrepaidContract.t)
      (h : heap) :
  touched (Driver.target o c) h (snd (snd (Driver.step o (c, h)))).
Proof.
  destruct o; simpl;
    unfold PrepaidContract.new_month, PrepaidContract.bill_call,
      PrepaidContract.cancel_contract;
    all_paths; touched_store.
Qed.

(** X13: a contract works on one bill at a time.  In every class, each
    operation, whether it returns or raises, leaves every bill other than
    its target as it was (the target is the argument of [new_month], and
    the bound bill for [bill_call] and [cancel_contract]), and no bill is
    created or dropped: the bills of earlier months are never touched
    again. *)
Theorem operations_keep_other_bills :
  Driver.keeps_other_bills Contract.t
  /\ Driver.keeps_other_bills MTMContract.t
  /\ Driver.keeps_other_bills TermContract.t
  /\ Driver.keeps_other_bills PrepaidContract.t.
Proof.
  split; [|split; [|split]]; intros o c h; apply touched_frame.
  - apply base_step_touched.
  - apply mtm_step_touched.
  - apply term_step_touched.
  - apply prepaid_step_touched.
Qed.

(** February's calls leave January's bill alone. *)
Lemma operations_keep_other_bills_witness :
  let c :=
    TermContract.mk (Some (Date.mk 2017 1 1)) (Date.mk 2019 1 1)
      (Some 1%nat) false 0 in
  let h : heap := {[ 0%nat := Bill.init; 1%nat := Bill.init ]} in
  snd (snd (Driver.step (Driver.BillCall (mkCall 61)) (c, h))) !! 0%nat
  = h !! 0%nat.
Proof.
  intros c h.
  destruct operations_keep_other_bills as (_ & _ & Hterm & _).
  apply (Hterm (Driver.BillCall (mkCall 61)) c h).
  simpl. discriminate.
Defined.

(** ** Invariants of a run *)

Section RunInvariant.
Context {S : Type} `{Driver.Plan S}.
Variable R : S -> S -> Prop.
Hypothesis R_refl : forall c, R c c.
Hypothesis R_trans : forall c1 c2 c3, R c1 c2 -> R c2 c3 -> R c1 c3.
Hypothesis R_step :
  forall (o : Driver.op) (c : S) (h : heap),
    R c (fst (snd (Driver.step o (c, h)))).

(** A relation that every operation keeps, whatever its outcome, holds
    between the start and the end of every run. *)
Lemma run_invariant (ops : list Driver.op) :
  forall (c : S) (h : heap), R c (fst (snd (Driver.run ops (c, h)))).
Proof.
  induction ops as [|o ops IH]; intros c h; [apply R_refl|].
  pose proof (R_step o c h) as Hstep.
  change (Driver.run (o :: ops) (c, h))
    with (match Driver.step o (c, h) with
          | (Ok _, w1) => Driver.run ops w1
          | (Raise ex, w1) => (Raise ex, w1)
          end).
  destruct (Driver.step o (c, h)) as [[[]|ex] [c1 h1]]; simpl in *.
  - exact (R_trans _ _ _ Hstep (IH c1 h1)).
  - exact Hstep.
Qed.
End RunInvariant.

(** [start] after an operation is [start] before it, or [None]. *)
Ltac start_kept o :=
  destruct o; simpl;
  unfold Contract.new_month, Contract.bill_call, Contract.cancel_contract,
    MTMContract.new_month, MTMContract.bill_call,
    MTMContract.cancel_contract,
    TermContract.new_month, TermContract.bill_call,
    TermContract.cancel_contract,
    PrepaidContract.new_month, PrepaidContract.bill_call,
    PrepaidContract.cancel_contract;
  all_paths; auto.

(** X14: a cancelled line stays cancelled.  In every class no method ever
    sets [start]: after any operations, also when one of them raises,
    [start] is what it was or [None], so once [cancel_contract] has
    cleared it nothing brings it back. *)
Theorem start_is_only_cleared :
  Driver.start_only_cleared Contract.t Contract.start
  /\ Driver.start_only_cleared MTMContract.t MTMContract.start
  /\ Driver.start_only_cleared TermContract.t TermContract.start
  /\ Driver.start_only_cleared PrepaidContract.t PrepaidContract.start.
Proof.
  split; [|split; [|split]]; intros ops c h.
  - apply (run_invariant
             (fun c c' => Contract.start c' = Contract.start c
                          \/ Contract.start c' = None)); clear.
    + auto.
    + intros c1 c2 c3 [H1|H1] [H2|H2]; rewrite ?H2, ?H1; auto.
    + intros o c h. start_kept o.
  - apply (run_invariant
             (fun c c' => MTMContract.start c' = MTMContract.start c
                          \/ MTMContract.start c' = None)); clear.
    + auto.
    + intros c1 c2 c3 [H1|H1] [H2|H2]; rewrite ?H2, ?H1; auto.
    + intros o c h. start_kept o.
  - apply (run_invariant
             (fun c c' => TermContract.start c' = TermContract.start c
                          \/ TermContract.start c' = None)); clear.
    + auto.
    + intros c1 c2 c3 [H1|H1] [H2|H2]; rewrite ?H2, ?H1; auto.
    + intros o c h. start_kept o.
  - apply (run_invariant
             (fun c c' => PrepaidContract.start c' = PrepaidContract.start c
                          \/ PrepaidContract.start c' = None)); clear.
    + auto.
    + intros c1 c2 c3 [H1|H1] [H2|H2]; rewrite ?H2, ?H1; auto.
    + intros o c h. start_kept o.
Qed.
